(** * ncatbot: the plugin base class

    A shallow embedding of [src/ncatbot/plugin/base_plugin.py]
    ([BasePlugin]): construction, the [__onload__] / [__unload__]
    lifecycle, the Func and Conf registries, and the statements of the
    specification about them.

    Python objects are records; attribute assignment is a state update.
    A method is a computation in a state-and-exception monad in which the
    state survives a raised exception, as a mutated Python object does.
    [await] is sequential composition: a coroutine resumes only after the
    awaited call has finished, and [asyncio.to_thread] is awaited, so the
    worker thread's call is over before the next statement runs. *)

From stdpp Require Import gmap strings list fin_maps.

Open Scope string_scope.
Set Warnings "-register-all".

(** ** Values *)

(** Object identities of the loaders on the heap. *)
Abbreviation loc := nat.

(** Resolved absolute paths, as their components below the root. *)
Abbreviation path := (list string).

(** The keyed tree a plugin persists: dicts, lists and scalar leaves. *)
Inductive tree :=
| TLeaf (v : string)
| TDict (items : list (string * tree))
| TList (items : list tree).

(** A Python value as far as this module handles one: plain data, or a
    reference to a loader object. *)
Inductive pyval :=
| VTree (t : tree)
| VRef (l : loc).

(** [isinstance(v, (dict, list))] *)
Definition isinstance_dict_list (v : pyval) : bool :=
  match v with
  | VTree (TDict _) | VTree (TList _) => true
  | _ => false
  end.

(** Truth value of an optional string attribute read with
    [getattr(self, attr, None)]: absent, [None] and [""] are falsy. *)
Definition str_truthy (o : option string) : bool :=
  match o with
  | Some s => negb (String.eqb s "")
  | None => false
  end.

(** Truth value of plain data: empty containers and the empty string are
    falsy. *)
Definition tree_truthy (t : tree) : bool :=
  match t with
  | TLeaf s => negb (String.eqb s "")
  | TDict [] | TList [] => false
  | _ => true
  end.

(** ** Exceptions *)

Inductive exn :=
| ValueError (msg : string)
| PluginLoadError (plugin : string) (work_path : path)
| RuntimeError (plugin : string) (cause : exn)
| FileTypeUnknownError
| LoadError
| SaveError
| FileNotFoundError
| FileExistsError
| NotADirectoryError
| IsADirectoryError
| AttributeError.

(** The three [ValueError]s of the module, by the names the specification
    gives them. Python tells them apart by message only. *)
Definition msg_missing_name : string := "缺失插件名称".
Definition msg_missing_version : string := "缺失插件版本号".
Definition msg_needs_filter : string := "普通功能至少添加一个过滤器".
Definition msg_duplicate (plugin func : string) : string :=
  "插件 " ++ plugin ++ " 已存在功能 " ++ func.

Definition IdentityError (e : exn) : bool :=
  match e with
  | ValueError m => String.eqb m msg_missing_name || String.eqb m msg_missing_version
  | _ => false
  end.

Definition ValidationError (e : exn) : bool :=
  match e with
  | ValueError m => String.eqb m msg_needs_filter
  | _ => false
  end.

Definition DuplicateNameError (plugin func : string) (e : exn) : bool :=
  match e with
  | ValueError m => String.eqb m (msg_duplicate plugin func)
  | _ => false
  end.

(** ** Registry entries *)

(** Modelled from the spec: [PermissionGroup] is declared in
    [ncatbot.plugin.event], which this module only imports: "enum: USER |
    ADMIN". The module passes the [value] of a member on; the member
    stands for it. *)
Inductive PermissionGroup := USER | ADMIN.

(** A Python callable, by object identity; this module stores callables and
    never calls them. *)
Inductive callable := Callable (id : nat).

(** [Union[str, re.Pattern]] *)
Inductive raw_filter :=
| RawStr (s : string)
| RawPattern (re : string).

(** Modelled from the spec: [Func] is declared in [ncatbot.plugin.event].
    The fields are those of the specification, in the order of the
    arguments of the one constructor call in this module. *)
Record Func := mkFunc {
  f_name : string;
  f_plugin_name : string;
  f_handler : callable;
  f_filter : option callable;
  f_raw_message_filter : option raw_filter;
  f_permission : PermissionGroup;
  f_permission_raise : bool
}.

(** Modelled from the spec: [Conf] is declared in [ncatbot.plugin.event];
    the call here is [Conf(self, key, rptr, default)]. The owning plugin
    is recorded by its name. *)
Record Conf := mkConf {
  c_plugin : string;
  c_key : string;
  c_rptr : option callable;
  c_default : pyval
}.

(** ** The file system *)

(** What a file holds. The byte-level encoding is the persistence
    engine's: a file either is the encoding of a tree in some format, or
    holds bytes that decode in no format. *)
Inductive content :=
| Encoded (fmt : string) (t : tree)
| Raw (bytes : string).

Inductive node :=
| Dir
| File (c : content).

(** [os.stat]: the root always is a directory. *)
Definition stat (fs : gmap path node) (p : path) : option node :=
  match p with
  | [] => Some Dir
  | _ => fs !! p
  end.

(** [Path.exists()] *)
Definition path_exists (fs : gmap path node) (p : path) : bool :=
  match stat fs p with
  | Some _ => true
  | None => false
  end.

(** [Path.is_dir()] *)
Definition is_dir (fs : gmap path node) (p : path) : bool :=
  match stat fs p with
  | Some Dir => true
  | _ => false
  end.

(** [Path.parent], [Path.name] and [Path / str], for a [str] of one
    component: joining the empty string changes nothing, and the name of
    the root is empty. *)
Definition parent (p : path) : path := removelast p.
Definition path_name (p : path) : string := List.last p "".
Definition path_join (p : path) (s : string) : path :=
  if String.eqb s "" then p else (p ++ [s])%list.

(** [os.mkdir] *)
Definition os_mkdir (fs : gmap path node) (p : path) : exn + gmap path node :=
  match stat fs p with
  | Some _ => inl FileExistsError
  | None =>
      match stat fs (parent p) with
      | None => inl FileNotFoundError
      | Some (File _) => inl NotADirectoryError
      | Some Dir => inr (<[p := Dir]> fs)
      end
  end.

(** [Path.mkdir(parents=True, exist_ok=...)], as pathlib writes it: try
    [os.mkdir]; when the parent is missing, make the parent with
    [exist_ok=True] and try once more. The fuel is the depth of the path. *)
Fixpoint mkdir_parents (fuel : nat) (exist_ok : bool)
  (fs : gmap path node) (p : path) : exn + gmap path node :=
  match os_mkdir fs p with
  | inr fs' => inr fs'
  | inl FileNotFoundError =>
      match fuel with
      | O => inl FileNotFoundError
      | S fuel' =>
          match mkdir_parents fuel' true fs (parent p) with
          | inl e => inl e
          | inr fs1 =>
              match os_mkdir fs1 p with
              | inr fs2 => inr fs2
              | inl e => if exist_ok && is_dir fs1 p then inr fs1 else inl e
              end
          end
      end
  | inl e => if exist_ok && is_dir fs p then inr fs else inl e
  end.

Definition mkdir (fs : gmap path node) (p : path) : exn + gmap path node :=
  mkdir_parents (length p) false fs p.

(** Opening a file for writing and writing [c]: the parent must be a
    directory and the path must not be one. *)
Definition write_file (fs : gmap path node) (p : path) (c : content)
  : exn + gmap path node :=
  match stat fs (parent p) with
  | None => inl FileNotFoundError
  | Some (File _) => inl NotADirectoryError
  | Some Dir =>
      match stat fs p with
      | Some Dir => inl IsADirectoryError
      | _ => inr (<[p := File c]> fs)
      end
  end.

(** ** Objects *)

(** Modelled from the spec: [UniversalLoader] is defined in
    [ncatbot.utils.io], which this module only imports. The specification
    gives the persistence engine a data path, a format and an in-memory
    tree exposed for mutation. [ldata] is the loader's [data] attribute,
    which this module both reads and assigns. *)
Record UniversalLoader := mkLoader {
  file_path : path;
  file_type : string;
  ldata : pyval
}.

(** What a concrete plugin class declares in its body, and where the file
    of its module is ([inspect.getmodule(cls).__file__], resolved). *)
Record PluginClass := mkClass {
  cls_name : option string;
  cls_version : option string;
  cls_dependencies : option tree;
  cls_author : string;
  cls_info : string;
  cls_save_type : string;
  cls_module_file : path
}.

(** A plugin instance. [attrs] holds the attributes that [kwd] added
    beside the ones below. The lock and the two [ChangeDir] managers hold
    no data that this module reads back and are left out; the event bus
    and the scheduler are kept as object identities. *)
Record Plugin := mkPlugin {
  name : option string;
  version : option string;
  dependencies : tree;
  author : string;
  info : string;
  save_type : string;
  attrs : gmap string pyval;
  this_file_path : path;
  self_path : path;
  _debug : bool;
  _event_handlers : list nat;
  _event_bus : nat;
  _time_task_scheduler : nat;
  _work_path : path;
  _data_path : path;
  first_load : bool;
  data : pyval;
  funcs : list Func;
  configs : list Conf
}.

(** The [debug] property. *)
Definition debug (p : Plugin) : bool := _debug p.

(** [f"{self.name}"] *)
Definition name_str (p : Plugin) : string :=
  match name p with
  | Some s => s
  | None => "None"
  end.

Definition set_data (v : pyval) (p : Plugin) : Plugin :=
  mkPlugin (name p) (version p) (dependencies p) (author p) (info p)
    (save_type p) (attrs p) (this_file_path p) (self_path p) (_debug p)
    (_event_handlers p) (_event_bus p) (_time_task_scheduler p)
    (_work_path p) (_data_path p) (first_load p)
    v (funcs p) (configs p).

Definition set_funcs (fs : list Func) (p : Plugin) : Plugin :=
  mkPlugin (name p) (version p) (dependencies p) (author p) (info p)
    (save_type p) (attrs p) (this_file_path p) (self_path p) (_debug p)
    (_event_handlers p) (_event_bus p) (_time_task_scheduler p)
    (_work_path p) (_data_path p) (first_load p)
    (data p) fs (configs p).

Definition set_configs (cs : list Conf) (p : Plugin) : Plugin :=
  mkPlugin (name p) (version p) (dependencies p) (author p) (info p)
    (save_type p) (attrs p) (this_file_path p) (self_path p) (_debug p)
    (_event_handlers p) (_event_bus p) (_time_task_scheduler p)
    (_work_path p) (_data_path p) (first_load p)
    (data p) (funcs p) cs.

(** Everything outside the plugin object: the disk, the loader objects,
    and the dispatch index of the shared event bus. *)
Record World := mkWorld {
  fs : gmap path node;
  heap : list UniversalLoader;
  bus : list Func
}.

Definition set_fs (f : gmap path node) (w : World) : World :=
  mkWorld f (heap w) (bus w).
Definition set_heap (h : list UniversalLoader) (w : World) : World :=
  mkWorld (fs w) h (bus w).
Definition set_bus (b : list Func) (w : World) : World :=
  mkWorld (fs w) (heap w) b.

(** The process-wide configuration: [PERSISTENT_DIR] (from
    [ncatbot.utils.literals]) after [resolve()], and the formats the
    persistence engine recognises. *)
Record Env := mkEnv {
  PERSISTENT_DIR : path;
  formats : list string
}.

Definition known_format (env : Env) (fmt : string) : bool :=
  existsb (String.eqb fmt) (formats env).

(** ** Calls that leave the module

    The lifecycle methods call out: to the mixin, to the user's hooks, to
    the persistence engine, to the logger and to the console. [out] keeps
    these calls in the order they are made. A hook entry also records the
    Func table the hook finds, which is what a hook instrumented to look at
    the table would see. *)

Inductive hook_id := HInit | HOnLoad | HClose | HOnClose.

Inductive Event :=
| EvUnregister
| EvHook (h : hook_id) (registry : list Func)
| EvLoad (l : loc)
| EvSave (l : loc)
| EvOpenW (p : path)
| EvWarning (msg : string)
| EvTreeView (title : string) (v : pyval).

Record State := mkState {
  self : Plugin;
  world : World;
  out : list Event
}.

(** ** The monad of methods *)

Definition M (S A : Type) : Type := S -> (exn + A) * S.

Definition ret {S A} (a : A) : M S A := fun s => (inr a, s).

Definition raise {S A} (e : exn) : M S A := fun s => (inl e, s).

Definition bind {S A B} (c : M S A) (k : A -> M S B) : M S B :=
  fun s =>
    match c s with
    | (inr a, s') => k a s'
    | (inl e, s') => (inl e, s')
    end.

Definition get {S} : M S S := fun s => (inr s, s).

Definition modify {S} (f : S -> S) : M S unit := fun s => (inr tt, f s).

(** [try: c  except <the exceptions h accepts>: h e]; any other exception
    passes through. *)
Definition try_except {S A} (c : M S A) (h : exn -> option (M S A)) : M S A :=
  fun s =>
    match c s with
    | (inl e, s') =>
        match h e with
        | Some k => k s'
        | None => (inl e, s')
        end
    | r => r
    end.

Declare Scope py_scope.
Delimit Scope py_scope with py.
Notation "x <- c ;; k" := (bind c (fun x => k))
  (at level 100, c at next level, right associativity) : py_scope.
Notation "c ;; k" := (bind c (fun _ => k))
  (at level 100, right associativity) : py_scope.
Open Scope py_scope.

Definition emit (e : Event) : M State unit :=
  modify (fun s => mkState (self s) (world s) (out s ++ [e])%list).

Definition modify_self (f : Plugin -> Plugin) : M State unit :=
  modify (fun s => mkState (f (self s)) (world s) (out s)).

Definition modify_world (f : World -> World) : M State unit :=
  modify (fun s => mkState (self s) (f (world s)) (out s)).

(** A file-system call made from a method. *)
Definition fs_call (r : gmap path node -> exn + gmap path node) : M State unit :=
  s <- get ;;
  match r (fs (world s)) with
  | inl e => raise e
  | inr fs' => modify_world (set_fs fs')
  end.

(** ** The persistence engine *)

(** Modelled from the spec: the constructor [UniversalLoader(path, type)]
    of [ncatbot.utils.io]. A new loader object holds the empty tree (the
    specification calls the tree of a loader that has read nothing "the
    (empty) in-memory tree"). *)
Definition new_loader (p : path) (fmt : string) (w : World) : loc * World :=
  (length (heap w), set_heap (heap w ++ [mkLoader p fmt (VTree (TDict []))])%list w).

(** Modelled from the spec: reading a file's content in a format. The
    specification promises the round trip ("save() followed by load() on an
    untouched in-memory tree yields an equal tree"); bytes written in
    another format, or by nobody, are malformed. *)
Definition decode (fmt : string) (c : content) : option tree :=
  match c with
  | Encoded f t => if String.eqb f fmt then Some t else None
  | Raw _ => None
  end.

(** Attribute access on a value that should be a loader: a dict or a list
    has neither [load], [save] nor an assignable [data]. *)
Definition as_loader (v : pyval) : M State loc :=
  match v with
  | VRef l => ret l
  | VTree _ => raise AttributeError
  end.

Definition read_loader (l : loc) : M State UniversalLoader :=
  s <- get ;;
  match heap (world s) !! l with
  | Some ld => ret ld
  | None => raise AttributeError
  end.

(** [target.data = v] *)
Definition assign_loader_data (target v : pyval) : M State unit :=
  l <- as_loader target ;;
  ld <- read_loader l ;;
  modify_world (fun w =>
    set_heap (<[l := mkLoader (file_path ld) (file_type ld) v]> (heap w)) w).

(** [target.data] *)
Definition loader_data (target : pyval) : M State pyval :=
  l <- as_loader target ;;
  ld <- read_loader l ;;
  ret (ldata ld).

(** Modelled from the spec: [UniversalLoader.load()] of [ncatbot.utils.io].
    "Reads the persisted store at the resolved data path into an in-memory
    keyed tree", raising the distinguished errors for an unknown format, a
    missing file and a load failure. A failed read leaves the tree as it
    was. *)
Definition load (env : Env) (target : pyval) : M State unit :=
  l <- as_loader target ;;
  ld <- read_loader l ;;
  emit (EvLoad l) ;;
  if negb (known_format env (file_type ld)) then raise FileTypeUnknownError
  else
    s <- get ;;
    match stat (fs (world s)) (file_path ld) with
    | None => raise FileNotFoundError
    | Some Dir => raise LoadError
    | Some (File c) =>
        match decode (file_type ld) c with
        | Some t => assign_loader_data target (VTree t)
        | None => raise LoadError
        end
    end.

(** Modelled from the spec: [UniversalLoader.save()] of [ncatbot.utils.io].
    "Serializes the in-memory tree to the data path" and "fails with a
    wrapped I/O/format error if the write cannot complete": whatever kept
    the write from completing (an unknown format, a value that is no tree,
    a path that cannot be written), the error that leaves [save] is the
    wrapping [SaveError]. *)
Definition save (env : Env) (target : pyval) : M State unit :=
  l <- as_loader target ;;
  ld <- read_loader l ;;
  emit (EvSave l) ;;
  if negb (known_format env (file_type ld)) then raise SaveError
  else
    match ldata ld with
    | VRef _ => raise SaveError
    | VTree t =>
        s <- get ;;
        match write_file (fs (world s)) (file_path ld)
                (Encoded (file_type ld) t) with
        | inr fs' => modify_world (set_fs fs')
        | inl _ => raise SaveError
        end
    end.

(** ** Hooks *)

(** A hook is the plugin author's code: given the arguments of the call it
    may change the plugin and the world in any way, and it returns or
    raises. *)
Definition hook : Type :=
  list pyval -> list (string * pyval) -> Plugin -> World ->
  option exn * Plugin * World.

Record Hooks := mkHooks {
  _init_ : hook;
  on_load : hook;
  _close_ : hook;
  on_close : hook
}.

(** The four hooks of [BasePlugin] itself: [pass]. *)
Definition pass : hook := fun _ _ p w => (None, p, w).
Definition default_hooks : Hooks := mkHooks pass pass pass pass.

(** [await asyncio.to_thread(f, ...)] and [await f(...)], with the
    positional and keyword arguments of the call passed on: the caller
    goes on when the hook has returned. *)
Definition call_hook (id : hook_id) (f : hook)
  (arg : list pyval) (kwd : list (string * pyval)) : M State unit :=
  s <- get ;;
  emit (EvHook id (funcs (self s))) ;;
  (fun s =>
     match f arg kwd (self s) (world s) with
     | (None, p, w) => (inr tt, mkState p w (out s))
     | (Some e, p, w) => (inl e, mkState p w (out s))
     end).

(** ** The Func and Conf registries *)

(** Modelled from the spec: [unregister_handlers()] is a method of
    [EventHandlerMixin] ([ncatbot.plugin.plugin_mixins]). It "removes every
    Func entry owned by this plugin from both the local table and the
    external event bus's dispatch index" and is a no-op on an empty
    table. *)
Definition unregister_handlers : M State unit :=
  emit EvUnregister ;;
  s <- get ;;
  modify_world (fun w =>
    set_bus (List.filter
               (fun f => negb (String.eqb (f_plugin_name f) (name_str (self s))))
               (bus w)) w) ;;
  modify_self (set_funcs []).

Definition _register_func (fname : string) (handler : callable)
  (filter : option callable) (raw_message_filter : option raw_filter)
  (permission : PermissionGroup) (permission_raise : bool) : M State unit :=
  s <- get ;;
  if forallb (fun var => negb (String.eqb fname (f_name var))) (funcs (self s))
  then
    modify_self (fun p =>
      set_funcs (funcs p ++ [mkFunc fname (name_str p) handler filter
                               raw_message_filter permission permission_raise])%list p)
  else raise (ValueError (msg_duplicate (name_str (self s)) fname)).

Definition register_user_func (fname : string) (handler : callable)
  (filter : option callable) (raw_message_filter : option raw_filter)
  (permission_raise : bool) : M State unit :=
  match filter, raw_message_filter with
  | None, None => raise (ValueError msg_needs_filter)
  | _, _ =>
      _register_func fname handler filter raw_message_filter USER permission_raise
  end.

Definition register_admin_func (fname : string) (handler : callable)
  (filter : option callable) (raw_message_filter : option raw_filter)
  (permission_raise : bool) : M State unit :=
  match filter, raw_message_filter with
  | None, None => raise (ValueError msg_needs_filter)
  | _, _ =>
      _register_func fname handler filter raw_message_filter ADMIN permission_raise
  end.

Definition register_default_func (handler : callable)
  (permission : PermissionGroup) : M State unit :=
  _register_func "default" handler None None permission false.

Definition register_config (key : string) (default : pyval)
  (rptr : option callable) : M State unit :=
  modify_self (fun p =>
    set_configs (configs p ++ [mkConf (name_str p) key rptr default])%list p).

(** ** Construction *)

(** The attributes that [__init__] assigns after the [**kwd] loop, whatever
    the loop has set (lines 157-187). *)
Definition assigned_after_kwd (k : string) : bool :=
  existsb (String.eqb k)
    ["this_file_path"; "self_path"; "lock"; "_debug"; "_event_handlers";
     "_event_bus"; "_time_task_scheduler"; "_work_path"; "_data_path";
     "first_load"; "data"; "work_space"; "self_space"].

(** Names that are no keyword of a construction, or whose value is no data:
    [event_bus], [time_task_scheduler] and [debug] are parameters of
    [__init__] itself and never reach [kwd]; [funcs] and [configs] hold
    [Func] and [Conf] objects, which no value of [kwd] is. *)
Definition not_a_data_keyword (k : string) : bool :=
  existsb (String.eqb k)
    ["event_bus"; "time_task_scheduler"; "debug"; "funcs"; "configs"].

Definition with_dependencies (d : tree) (c : PluginClass) : PluginClass :=
  mkClass (cls_name c) (cls_version c) (Some d) (cls_author c) (cls_info c)
    (cls_save_type c) (cls_module_file c).

(** [setattr(self, k, v)] of the [**kwd] loop (lines 152-154), on the
    attributes the class body declares and the table [attrs] of the
    attributes that exist only because [kwd] named them: the value replaces
    the attribute of that name. The values of [kwd] are taken to respect
    the annotations of the class body ([name: str], ..., [dependencies:
    dict]): a pair that gives a declared string attribute something else
    than a string, [dependencies] a loader object, or the Func table or
    the Conf list a piece of data, has no image in [Plugin] and is left
    out. A pair for an attribute that [__init__] assigns after the loop is
    overwritten there, so it leaves no trace either. *)
Definition setattr (k : string) (v : pyval)
  (a : PluginClass * gmap string pyval) : PluginClass * gmap string pyval :=
  let (c, extra) := a in
  if String.eqb k "name" then
    match v with
    | VTree (TLeaf s) =>
        (mkClass (Some s) (cls_version c) (cls_dependencies c) (cls_author c)
           (cls_info c) (cls_save_type c) (cls_module_file c), extra)
    | _ => a
    end
  else if String.eqb k "version" then
    match v with
    | VTree (TLeaf s) =>
        (mkClass (cls_name c) (Some s) (cls_dependencies c) (cls_author c)
           (cls_info c) (cls_save_type c) (cls_module_file c), extra)
    | _ => a
    end
  else if String.eqb k "author" then
    match v with
    | VTree (TLeaf s) =>
        (mkClass (cls_name c) (cls_version c) (cls_dependencies c) s
           (cls_info c) (cls_save_type c) (cls_module_file c), extra)
    | _ => a
    end
  else if String.eqb k "info" then
    match v with
    | VTree (TLeaf s) =>
        (mkClass (cls_name c) (cls_version c) (cls_dependencies c) (cls_author c)
           s (cls_save_type c) (cls_module_file c), extra)
    | _ => a
    end
  else if String.eqb k "save_type" then
    match v with
    | VTree (TLeaf s) =>
        (mkClass (cls_name c) (cls_version c) (cls_dependencies c) (cls_author c)
           (cls_info c) s (cls_module_file c), extra)
    | _ => a
    end
  else if String.eqb k "dependencies" then
    match v with
    | VTree d => (with_dependencies d c, extra)
    | VRef _ => a
    end
  else if assigned_after_kwd k || not_a_data_keyword k then a
  else (c, <[k := v]> extra).

(** The "first start" block of [__init__]: the value of [first_load], after
    making the working directory when it is missing. *)
Definition check_first_load (work_path data_path : path) : M World bool :=
  w <- get ;;
  if negb (path_exists (fs w) work_path) then
    match mkdir (fs w) work_path with
    | inl e => raise e
    | inr fs' => modify (set_fs fs') ;; ret true
    end
  else if negb (path_exists (fs w) data_path) then ret true
  else ret false.

(** Modelled from the spec: the Func table and the Conf list of a new
    instance. This module reads [self.funcs] and [self.configs] and appends
    to them, and assigns them nowhere; the specification has every
    instance own its two lists, which start empty. *)
Definition new_registries : list Func * list Conf := ([], []).

(** Lines 144-187. The name and the version are checked on what the class
    declares, before [kwd] is looked at; the default of [dependencies] is
    put in before the [kwd] loop too, so that a value [kwd] gives for it
    stays whatever it is. *)
Definition __init__ (env : Env) (cls : PluginClass)
  (event_bus time_task_scheduler : nat) (debug_flag : bool)
  (kwd : list (string * pyval)) : M World Plugin :=
  if negb (str_truthy (cls_name cls)) then raise (ValueError msg_missing_name)
  else if negb (str_truthy (cls_version cls)) then raise (ValueError msg_missing_version)
  else
    let deps :=
      match cls_dependencies cls with
      | Some d => if tree_truthy d then d else TDict []
      | None => TDict []
      end in
    let (c, extra) :=
      fold_left (fun a kv => setattr kv.1 kv.2 a) kwd (with_dependencies deps cls, ∅) in
    let plugin_file := cls_module_file c in
    let self_dir := parent plugin_file in
    let plugin_dir_name := path_name self_dir in
    let work_path := path_join (PERSISTENT_DIR env) plugin_dir_name in
    let data_path := path_join work_path (plugin_dir_name ++ "." ++ cls_save_type c) in
    first <- check_first_load work_path data_path ;;
    w <- get ;;
    if negb (is_dir (fs w) work_path) then
      raise (PluginLoadError
               (match cls_name c with Some s => s | None => "None" end) work_path)
    else
      l <- (fun w => let (l, w') := new_loader data_path (cls_save_type c) w in
                     (inr l, w')) ;;
      ret (mkPlugin (cls_name c) (cls_version c)
             (match cls_dependencies c with Some d => d | None => deps end)
             (cls_author c) (cls_info c)
             (cls_save_type c) extra plugin_file self_dir debug_flag []
             event_bus time_task_scheduler work_path data_path first
             (VRef l) new_registries.1 new_registries.2).

(** ** Loading *)

(** Lines 231-233: a [data] attribute that is a plain dict or list is
    replaced by a new loader. The second assignment reads [self.data]
    after the first one has rebound it, on both of its sides. *)
Definition onload_adopt : M State unit :=
  s <- get ;;
  if isinstance_dict_list (data (self s)) then
    loader <- (fun s => let (l, w') := new_loader (_data_path (self s))
                                         (save_type (self s)) (world s) in
                        (inr (VRef l), mkState (self s) w' (out s))) ;;
    modify_self (set_data loader) ;;
    rhs <- (s <- get ;; ret (data (self s))) ;;
    target <- (s <- get ;; ret (data (self s))) ;;
    assign_loader_data target rhs
  else ret tt.

(** Lines 234-242: read the store; outside debug mode a failed read is
    answered by emptying the file, saving and reading again. *)
Definition onload_read (env : Env) : M State unit :=
  try_except
    (s <- get ;; load env (data (self s)))
    (fun e =>
       match e with
       | FileTypeUnknownError | LoadError | FileNotFoundError =>
           Some (s <- get ;;
                 if debug (self s) then ret tt
                 else
                   emit (EvOpenW (_data_path (self s))) ;;
                   fs_call (fun fs => write_file fs (_data_path (self s)) (Raw "")) ;;
                   (s <- get ;; save env (data (self s))) ;;
                   (s <- get ;; load env (data (self s))))
       | _ => None
       end).

Definition __onload__ (env : Env) (h : Hooks) : M State unit :=
  onload_adopt ;;
  onload_read env ;;
  call_hook HInit (_init_ h) [] [] ;;
  call_hook HOnLoad (on_load h) [] [].

(** ** Unloading *)

(** The text of the warning, without the colour codes of
    [ncatbot.utils.Color]. *)
Definition msg_debug_no_save : string := "debug模式取消退出时的保存行为".

(** Lines 206-219: the tree view in debug mode, the save otherwise; the
    three persistence errors are wrapped in a [RuntimeError]. The tree view
    is the call [visualize_tree(self.data.data)] under the plugin's name. *)
Definition unload_persist (env : Env) : M State unit :=
  try_except
    (s <- get ;;
     if debug (self s) then
       emit (EvWarning msg_debug_no_save) ;;
       v <- loader_data (data (self s)) ;;
       emit (EvTreeView (name_str (self s)) v)
     else save env (data (self s)))
    (fun e =>
       match e with
       | FileTypeUnknownError | SaveError | FileNotFoundError =>
           Some (s <- get ;; raise (RuntimeError (name_str (self s)) e))
       | _ => None
       end).

Definition __unload__ (env : Env) (h : Hooks)
  (arg : list pyval) (kwd : list (string * pyval)) : M State unit :=
  unregister_handlers ;;
  call_hook HClose (_close_ h) arg kwd ;;
  call_hook HOnClose (on_close h) arg kwd ;;
  unload_persist env.

(** ** Method calls as data

    The methods of the class, to state what holds of "every method". *)
Inductive Call :=
| CallOnload
| CallUnload (arg : list pyval) (kwd : list (string * pyval))
| CallUnregisterHandlers
| CallRegisterFunc (fname : string) (handler : callable)
    (filter : option callable) (raw_message_filter : option raw_filter)
    (permission : PermissionGroup) (permission_raise : bool)
| CallRegisterUserFunc (fname : string) (handler : callable)
    (filter : option callable) (raw_message_filter : option raw_filter)
    (permission_raise : bool)
| CallRegisterAdminFunc (fname : string) (handler : callable)
    (filter : option callable) (raw_message_filter : option raw_filter)
    (permission_raise : bool)
| CallRegisterDefaultFunc (handler : callable) (permission : PermissionGroup)
| CallRegisterConfig (key : string) (default : pyval) (rptr : option callable).

Definition invoke (env : Env) (h : Hooks) (c : Call) : M State unit :=
  match c with
  | CallOnload => __onload__ env h
  | CallUnload arg kwd => __unload__ env h arg kwd
  | CallUnregisterHandlers => unregister_handlers
  | CallRegisterFunc n f flt raw perm pr => _register_func n f flt raw perm pr
  | CallRegisterUserFunc n f flt raw pr => register_user_func n f flt raw pr
  | CallRegisterAdminFunc n f flt raw pr => register_admin_func n f flt raw pr
  | CallRegisterDefaultFunc f perm => register_default_func f perm
  | CallRegisterConfig k d r => register_config k d r
  end.

(** ** The vocabulary of the specification *)

(** A Func of that name is in the plugin's table / no Func is. *)
Definition registered (fname : string) (p : Plugin) : Prop :=
  exists f, In f (funcs p) /\ f_name f = fname.

Definition fresh_name (fname : string) (p : Plugin) : Prop :=
  forall f, In f (funcs p) -> f_name f <> fname.

(** The plugin with one more Func at the end of its table. *)
Definition with_func (f : Func) (s : State) : State :=
  mkState (set_funcs (funcs (self s) ++ [f])%list (self s)) (world s) (out s).

(** The plugin with one more Conf at the end of its list. *)
Definition with_conf (c : Conf) (s : State) : State :=
  mkState (set_configs (configs (self s) ++ [c])%list (self s)) (world s) (out s).

(** A declared identity field is "empty or absent". *)
Definition missing (o : option string) : Prop := o = None \/ o = Some "".

(** The three causes of a failed read that the specification names. *)
Definition unknown_format (env : Env) (ld : UniversalLoader) : Prop :=
  known_format env (file_type ld) = false.

Definition file_absent (w : World) (ld : UniversalLoader) : Prop :=
  stat (fs w) (file_path ld) = None.

Definition file_malformed (w : World) (ld : UniversalLoader) : Prop :=
  exists c, stat (fs w) (file_path ld) = Some (File c)
            /\ decode (file_type ld) c = None.

(** The plugin's [data] attribute is the loader object at [l], bound to
    the plugin's own data path. *)
Definition owns_loader (s : State) (l : loc) (ld : UniversalLoader) : Prop :=
  data (self s) = VRef l
  /\ heap (world s) !! l = Some ld
  /\ file_path ld = _data_path (self s).

(** A hook that leaves [first_load] alone. *)
Definition hook_keeps_first_load (f : hook) : Prop :=
  forall arg kwd p w, first_load (f arg kwd p w).1.2 = first_load p.

Definition hooks_keep_first_load (h : Hooks) : Prop :=
  hook_keeps_first_load (_init_ h) /\ hook_keeps_first_load (on_load h)
  /\ hook_keeps_first_load (_close_ h) /\ hook_keeps_first_load (on_close h).

(** The state in which the close hooks start: the Func table emptied and
    the plugin's entries taken off the bus. *)
Definition unregistered (s : State) : Plugin * World :=
  (set_funcs [] (self s),
   set_bus (List.filter
              (fun f => negb (String.eqb (f_plugin_name f) (name_str (self s))))
              (bus (world s))) (world s)).

(** The events of the persistence step of [__unload__]. *)
Definition is_save (e : Event) : bool :=
  match e with
  | EvSave _ => true
  | _ => false
  end.

Definition is_persist_event (e : Event) : bool :=
  match e with
  | EvSave _ | EvWarning _ | EvTreeView _ _ => true
  | _ => false
  end.

(** ** Frame conditions *)

(** The errors of the file-system calls. *)
Definition os_error (e : exn) : bool :=
  match e with
  | FileExistsError | FileNotFoundError | NotADirectoryError => true
  | _ => false
  end.

(** A computation that leaves the attribute [f] of the plugin as it found
    it, whether it returns or raises. *)
Definition keeps {A B} (f : Plugin -> B) (c : M State A) : Prop :=
  forall s, f (self (c s).2) = f (self s).

(** The calls that a computation started in [s] puts on record. *)
Definition calls_of {A} (c : M State A) (s : State) : list Event :=
  skipn (length (out s)) (out (c s).2).

(** The state with more calls on record. *)
Definition logged (evs : list Event) (s : State) : State :=
  mkState (self s) (world s) (out s ++ evs)%list.

(** ** Example plugins *)

Definition env0 : Env := mkEnv ["data"] ["json"].

Definition world0 : World := mkWorld ∅ [] [].

Definition Echo : PluginClass :=
  mkClass (Some "Echo") (Some "1.0") None "Unknown" "" "json"
    ["plugins"; "echo"; "main.py"].

(** The same plugin declaring a format the engine of [env0] does not know. *)
Definition EchoXyz : PluginClass :=
  mkClass (Some "Echo") (Some "1.0") None "Unknown" "" "xyz"
    ["plugins"; "echo"; "main.py"].

(** A class that declares a version and no name. *)
Definition Nameless : PluginClass :=
  mkClass None (Some "1.0") None "Unknown" "" "json"
    ["plugins"; "nameless"; "main.py"].

(** The Echo plugin as [__init__] leaves it in [world0], and the world
    after that construction. *)
Definition echo_plugin (debug_flag : bool) : Plugin :=
  mkPlugin (Some "Echo") (Some "1.0") (TDict []) "Unknown" "" "json" ∅
    ["plugins"; "echo"; "main.py"] ["plugins"; "echo"] debug_flag [] 0 0
    ["data"; "echo"] ["data"; "echo"; "echo.json"] true (VRef 0) [] [].

Definition echo_world : World :=
  mkWorld (<[["data"; "echo"] := Dir]> (<[["data"] := Dir]> ∅))
    [mkLoader ["data"; "echo"; "echo.json"] "json" (VTree (TDict []))] [].

Definition echo_state (debug_flag : bool) : State :=
  mkState (echo_plugin debug_flag) echo_world [].

Definition ping : Func :=
  mkFunc "ping" "Echo" (Callable 1) None (Some (RawStr "ping")) ADMIN false.

(** A synchronous close hook that raises. *)
Definition failing_close : hook := fun _ _ p w => (Some (ValueError "close"), p, w).

(** The Echo plugin declared with the format "xyz", as [__init__] leaves
    it in [world0]. *)
Definition xyz_plugin : Plugin :=
  mkPlugin (Some "Echo") (Some "1.0") (TDict []) "Unknown" "" "xyz" ∅
    ["plugins"; "echo"; "main.py"] ["plugins"; "echo"] false [] 0 0
    ["data"; "echo"] ["data"; "echo"; "echo.xyz"] true (VRef 0) [] [].

Definition xyz_state : State :=
  mkState xyz_plugin
    (mkWorld (<[["data"; "echo"] := Dir]> (<[["data"] := Dir]> ∅))
       [mkLoader ["data"; "echo"; "echo.xyz"] "xyz" (VTree (TDict []))] [])
    [].

(** The Echo plugin when its working directory has been removed since the
    construction. *)
Definition echo_state_no_dir : State :=
  mkState (echo_plugin false) (set_fs ∅ echo_world) [].

(** The Echo plugin when its loader already holds a tree and the data file
    is not there. *)
Definition kv : tree := TDict [("k", TLeaf "v")].

Definition echo_state_kv : State :=
  mkState (echo_plugin false)
    (set_heap [mkLoader ["data"; "echo"; "echo.json"] "json" (VTree kv)]
       echo_world) [].

(** A later run of the host: the disk after the Echo plugin has saved its
    tree, and the plugin as a second construction leaves it there. *)
Definition world_saved : World :=
  mkWorld (<[["data"; "echo"; "echo.json"] := File (Encoded "json" (TDict []))]>
             (fs echo_world)) [] [].

Definition echo_plugin_again : Plugin :=
  mkPlugin (Some "Echo") (Some "1.0") (TDict []) "Unknown" "" "json" ∅
    ["plugins"; "echo"; "main.py"] ["plugins"; "echo"] false [] 0 0
    ["data"; "echo"] ["data"; "echo"; "echo.json"] false (VRef 0) [] [].

(** The Echo plugin when something has put a plain dict in its [data]
    attribute before the load. *)
Definition echo_state_dict : State :=
  mkState (set_data (VTree kv) (echo_plugin false)) echo_world [].

(** ** Tactics *)

(** Unfold the monad and reduce. *)
Ltac run :=
  unfold bind, ret, raise, get, modify_self, modify_world, emit, modify;
  simpl.

(** ** More vocabulary *)

(** The attributes on [self] when the [kwd] loop of [__init__] is over:
    what the class declares with the strings of [kwd] put in, and the
    added attributes. *)
Definition after_kwd (cls : PluginClass) (kwd : list (string * pyval))
  : PluginClass * gmap string pyval :=
  fold_left (fun a kv => setattr kv.1 kv.2 a) kwd (cls, ∅).

(** The working directory and the data file that [__init__] computes from
    those attributes. *)
Definition work_path_of (env : Env) (c : PluginClass) : path :=
  path_join (PERSISTENT_DIR env) (path_name (parent (cls_module_file c))).

Definition data_path_of (env : Env) (c : PluginClass) : path :=
  path_join (work_path_of env c)
    (path_name (parent (cls_module_file c)) ++ "." ++ cls_save_type c).

(** The names the [setattr] of the [kwd] loop treats as declared string
    attributes. *)
Definition declared_string_attr (k : string) : bool :=
  String.eqb k "name" || String.eqb k "version" || String.eqb k "author"
  || String.eqb k "info" || String.eqb k "save_type".

(** The value of [dependencies] when the [kwd] loop starts (lines 149-150),
    and when it is over. *)
Definition default_dependencies (cls : PluginClass) : tree :=
  match cls_dependencies cls with
  | Some d => if tree_truthy d then d else TDict []
  | None => TDict []
  end.

Definition dependencies_after (cls : PluginClass) (kwd : list (string * pyval))
  : tree :=
  match cls_dependencies
          (after_kwd (with_dependencies (default_dependencies cls) cls) kwd).1 with
  | Some d => d
  | None => default_dependencies cls
  end.

(** A keyword that names an attribute only [kwd] brings: none that the
    class body declares, none that [__init__] assigns itself, and none of
    the names of the object protocol ([__class__], [__dict__], ...), which
    are no plain attributes. *)
Definition added_attr (k : string) : bool :=
  negb (declared_string_attr k || String.eqb k "dependencies"
        || assigned_after_kwd k || not_a_data_keyword k
        || String.prefix "__" k).

(** No two entries of the Func table have the same name. *)
Definition names_unique (p : Plugin) : Prop := NoDup (map f_name (funcs p)).

(** The three exceptions that [__unload__] catches around the save. *)
Definition persistence_error (e : exn) : bool :=
  match e with
  | FileTypeUnknownError | SaveError | FileNotFoundError => true
  | _ => false
  end.

(** What identifies a plugin and places it on disk. *)
Definition identity_and_paths (p : Plugin)
  : option string * option string * string * bool * path * path * path * path :=
  (name p, version p, save_type p, _debug p, this_file_path p, self_path p,
   _work_path p, _data_path p).

(** A hook that leaves the disk and the plugin's debug flag alone. *)
Definition hook_keeps_disk (f : hook) : Prop :=
  forall arg kwd p w,
    fs (f arg kwd p w).2 = fs w /\ _debug (f arg kwd p w).1.2 = _debug p.

(** A world in which the Echo plugin's working directory path is taken by
    a regular file. *)
Definition world_blocked : World :=
  mkWorld (<[["data"; "echo"] := File (Raw "x")]> (<[["data"] := Dir]> ∅)) [] [].

(** A computation that keeps the property [I] of the plugin, whether it
    returns or raises. *)
Definition preserves {A} (I : Plugin -> Prop) (c : M State A) : Prop :=
  forall s, I (self s) -> I (self (c s).2).

(** A computation that, started in debug mode, leaves the disk as it is
    and debug mode on. *)
Definition disk_quiet {A} (c : M State A) : Prop :=
  forall s, debug (self s) = true ->
            fs (world (c s).2) = fs (world s) /\ debug (self (c s).2) = true.

(** The handler of [__onload__] (lines 237-242), by itself. *)
Definition onload_recovery (env : Env) : M State unit :=
  s <- get ;;
  if debug (self s) then ret tt
  else
    emit (EvOpenW (_data_path (self s))) ;;
    fs_call (fun fs => write_file fs (_data_path (self s)) (Raw "")) ;;
    (s <- get ;; save env (data (self s))) ;;
    (s <- get ;; load env (data (self s))).

(** A hook that leaves the plugin's [data] attribute alone. *)
Definition hook_keeps_data (f : hook) : Prop :=
  forall arg kwd p w, data (f arg kwd p w).1.2 = data p.

(** A hook that leaves the plugin's identity and paths alone. *)
Definition hook_keeps_identity (f : hook) : Prop :=
  forall arg kwd p w,
    identity_and_paths (f arg kwd p w).1.2 = identity_and_paths p.

(** The Echo plugin when a plain dict is in [data] and a readable data file
    is on the disk. *)
Definition echo_state_dict_saved : State :=
  mkState (set_data (VTree kv) (echo_plugin false))
    (set_fs (<[["data"; "echo"; "echo.json"] := File (Encoded "json" (TDict []))]>
               (fs echo_world)) echo_world) [].

(** * Properties *)

(** ** The Func registry *)

Lemma forallb_names_registered fname l :
  (exists f, In f l /\ f_name f = fname) ->
  forallb (fun var => negb (String.eqb fname (f_name var))) l = false.
Proof.
  intros [f [Hin Hn]]. apply not_true_is_false. intros Hall.
  rewrite forallb_forall in Hall. specialize (Hall f Hin).
  rewrite Hn, String.eqb_refl in Hall. discriminate.
Qed.

Lemma forallb_names_fresh fname l :
  (forall f, In f l -> f_name f <> fname) ->
  forallb (fun var => negb (String.eqb fname (f_name var))) l = true.
Proof.
  intros Hf. apply forallb_forall. intros f Hin.
  apply negb_true_iff. apply String.eqb_neq. intros E. apply (Hf f Hin). auto.
Qed.

Lemma _register_func_registered s fname h flt raw perm pr :
  registered fname (self s) ->
  _register_func fname h flt raw perm pr s
  = (inl (ValueError (msg_duplicate (name_str (self s)) fname)), s).
Proof.
  intros H. unfold _register_func. run.
  rewrite (forallb_names_registered _ _ H). reflexivity.
Qed.

Lemma _register_func_fresh s fname h flt raw perm pr :
  fresh_name fname (self s) ->
  _register_func fname h flt raw perm pr s
  = (inr tt, with_func (mkFunc fname (name_str (self s)) h flt raw perm pr) s).
Proof.
  intros H. unfold _register_func. run.
  rewrite (forallb_names_fresh _ _ H). reflexivity.
Qed.

Lemma DuplicateNameError_msg p f :
  DuplicateNameError p f (ValueError (msg_duplicate p f)) = true.
Proof. simpl. apply String.eqb_refl. Qed.

Lemma has_filter_cases (flt : option callable) (raw : option raw_filter) :
  flt <> None \/ raw <> None ->
  forall A (a b : A),
    match flt, raw with
    | None, None => a
    | _, _ => b
    end = b.
Proof.
  intros [H | H] A a b; destruct flt, raw; try reflexivity; congruence.
Qed.

(** C3, the claim as written, fails: a second registration of a taken name
    through [register_user_func] with neither filter is turned away by the
    filter check, with the error of that check and not with the
    duplicate-name error. *)
Lemma register_taken_name_without_filter_counterexample :
  let s := with_func ping (echo_state false) in
  registered "ping" (self s)
  /\ exists e,
       register_user_func "ping" (Callable 2) None None false s = (inl e, s)
       /\ DuplicateNameError (name_str (self s)) "ping" e = false
       /\ ValidationError e = true.
Proof.
  intros s. split.
  - exists ping. split; [left; reflexivity | reflexivity].
  - exists (ValueError msg_needs_filter).
    split; [reflexivity |]. split; vm_compute; reflexivity.
Qed.

(** C3, amended: when a Func of that name is registered, a further
    registration under the name fails with the duplicate-name error and
    leaves the state as it was, through [_register_func], through
    [register_default_func] (the name being "default"), and through
    [register_user_func] and [register_admin_func] called with at least one
    filter; when the name is fresh, the same calls append exactly one Func
    of that name at the end of the table. *)
Theorem register_name_collision s fname h flt raw perm pr :
  (registered fname (self s) ->
     let dup := ValueError (msg_duplicate (name_str (self s)) fname) in
     DuplicateNameError (name_str (self s)) fname dup = true
     /\ _register_func fname h flt raw perm pr s = (inl dup, s)
     /\ (fname = "default" -> register_default_func h perm s = (inl dup, s))
     /\ (flt <> None \/ raw <> None ->
           register_user_func fname h flt raw pr s = (inl dup, s)
           /\ register_admin_func fname h flt raw pr s = (inl dup, s)))
  /\ (fresh_name fname (self s) ->
        let entry := mkFunc fname (name_str (self s)) h in
        _register_func fname h flt raw perm pr s
        = (inr tt, with_func (entry flt raw perm pr) s)
        /\ (fname = "default" ->
              register_default_func h perm s
              = (inr tt, with_func (entry None None perm false) s))
        /\ (flt <> None \/ raw <> None ->
              register_user_func fname h flt raw pr s
              = (inr tt, with_func (entry flt raw USER pr) s)
              /\ register_admin_func fname h flt raw pr s
                 = (inr tt, with_func (entry flt raw ADMIN pr) s))
        /\ forall f, length (funcs (self (with_func f s)))
                     = S (length (funcs (self s)))).
Proof.
  split.
  - intros Hreg dup. split; [apply DuplicateNameError_msg |].
    split; [apply _register_func_registered; exact Hreg |].
    split.
    + intros ->. unfold register_default_func.
      apply _register_func_registered; exact Hreg.
    + intros Hf. unfold register_user_func, register_admin_func.
      rewrite !(has_filter_cases _ _ Hf).
      split; apply _register_func_registered; exact Hreg.
  - intros Hfresh entry. split; [apply _register_func_fresh; exact Hfresh |].
    split.
    + intros ->. unfold register_default_func.
      apply _register_func_fresh; exact Hfresh.
    + split.
      * intros Hf. unfold register_user_func, register_admin_func.
        rewrite !(has_filter_cases _ _ Hf).
        split; apply _register_func_fresh; exact Hfresh.
      * intros f. simpl. rewrite length_app. simpl. lia.
Qed.

Lemma register_name_collision_witness :
  let s := with_func ping (echo_state false) in
  register_admin_func "ping" (Callable 2) None (Some (RawStr "p")) false s
  = (inl (ValueError (msg_duplicate "Echo" "ping")), s)
  /\ register_admin_func "pong" (Callable 2) None (Some (RawStr "p")) false s
     = (inr tt,
        with_func (mkFunc "pong" "Echo" (Callable 2) None (Some (RawStr "p"))
                     ADMIN false) s).
Proof.
  intros s. split.
  - destruct (register_name_collision s "ping" (Callable 2) None
                (Some (RawStr "p")) ADMIN false) as [Hdup _].
    assert (Hreg : registered "ping" (self s)).
    { exists ping. split; [left; reflexivity | reflexivity]. }
    destruct (Hdup Hreg) as (_ & _ & _ & Hfilter).
    apply Hfilter. right. discriminate.
  - destruct (register_name_collision s "pong" (Callable 2) None
                (Some (RawStr "p")) ADMIN false) as [_ Hnew].
    assert (Hfresh : fresh_name "pong" (self s)).
    { intros f [<- | []]. discriminate. }
    destruct (Hnew Hfresh) as (_ & _ & Hfilter & _).
    apply Hfilter. right. discriminate.
Defined.

(** C6: [register_user_func] and [register_admin_func] called with neither
    [filter] nor [raw_message_filter] fail with the validation error and
    register nothing; with at least one of the two and a fresh name they
    succeed, adding the Func with permission USER, respectively ADMIN;
    [register_default_func] registers "default" with no filter at all. *)
Theorem register_filter_requirement s fname h flt raw perm pr :
  (flt = None -> raw = None ->
     ValidationError (ValueError msg_needs_filter) = true
     /\ register_user_func fname h flt raw pr s
        = (inl (ValueError msg_needs_filter), s)
     /\ register_admin_func fname h flt raw pr s
        = (inl (ValueError msg_needs_filter), s))
  /\ (flt <> None \/ raw <> None -> fresh_name fname (self s) ->
        register_user_func fname h flt raw pr s
        = (inr tt, with_func (mkFunc fname (name_str (self s)) h flt raw USER pr) s)
        /\ register_admin_func fname h flt raw pr s
           = (inr tt, with_func (mkFunc fname (name_str (self s)) h flt raw ADMIN pr) s))
  /\ (fresh_name "default" (self s) ->
        register_default_func h perm s
        = (inr tt,
           with_func (mkFunc "default" (name_str (self s)) h None None perm false) s)).
Proof.
  split; [| split].
  - intros -> ->. split; [reflexivity |]. split; reflexivity.
  - intros Hf Hfresh. unfold register_user_func, register_admin_func.
    rewrite !(has_filter_cases _ _ Hf).
    split; apply _register_func_fresh; exact Hfresh.
  - intros Hfresh. unfold register_default_func.
    apply _register_func_fresh; exact Hfresh.
Qed.

Lemma register_filter_requirement_witness :
  let s := echo_state false in
  register_user_func "ping" (Callable 1) None None false s
  = (inl (ValueError msg_needs_filter), s)
  /\ register_user_func "ping" (Callable 1) None (Some (RawStr "ping")) false s
     = (inr tt, with_func (mkFunc "ping" "Echo" (Callable 1) None
                             (Some (RawStr "ping")) USER false) s)
  /\ register_default_func (Callable 4) USER s
     = (inr tt, with_func (mkFunc "default" "Echo" (Callable 4) None None
                             USER false) s).
Proof.
  intros s.
  assert (Hfresh : forall n, fresh_name n (self s)) by (intros n f []).
  split; [| split].
  - destruct (register_filter_requirement s "ping" (Callable 1) None None
                USER false) as (Hnone & _ & _).
    destruct (Hnone eq_refl eq_refl) as (_ & Huser & _). exact Huser.
  - destruct (register_filter_requirement s "ping" (Callable 1) None
                (Some (RawStr "ping")) USER false) as (_ & Hsome & _).
    assert (Hf : (None : option callable) <> None
                 \/ Some (RawStr "ping") <> None) by (right; discriminate).
    destruct (Hsome Hf (Hfresh "ping")) as [Huser _].
    exact Huser.
  - destruct (register_filter_requirement s "ping" (Callable 4) None None
                USER false) as (_ & _ & Hdefault).
    exact (Hdefault (Hfresh "default")).
Defined.

(** ** The Conf registry *)

(** C9: [register_config] never fails and never looks at the keys already
    registered: every call appends one Conf at the end of the list, so
    registering one key twice leaves two entries with that key, in the
    order of the calls, after everything that was there. *)
Theorem register_config_appends s key d1 r1 d2 r2 :
  let c1 := mkConf (name_str (self s)) key r1 d1 in
  let c2 := mkConf (name_str (self s)) key r2 d2 in
  register_config key d1 r1 s = (inr tt, with_conf c1 s)
  /\ length (configs (self (with_conf c1 s))) = S (length (configs (self s)))
  /\ (register_config key d1 r1 ;; register_config key d2 r2) s
     = (inr tt, with_conf c2 (with_conf c1 s))
  /\ configs (self (with_conf c2 (with_conf c1 s)))
     = (configs (self s) ++ [c1; c2])%list
  /\ In c1 (configs (self (with_conf c2 (with_conf c1 s))))
  /\ In c2 (configs (self (with_conf c2 (with_conf c1 s)))).
Proof.
  intros c1 c2. split; [reflexivity |].
  split; [simpl; rewrite length_app; simpl; lia |].
  split; [reflexivity |].
  assert (E : configs (self (with_conf c2 (with_conf c1 s)))
              = (configs (self s) ++ [c1; c2])%list).
  { simpl. rewrite <- app_assoc. reflexivity. }
  split; [exact E |]. rewrite E.
  split; apply in_or_app; right; simpl; auto.
Qed.

(** ** Construction *)

Lemma missing_not_truthy o : missing o <-> str_truthy o = false.
Proof.
  unfold missing. destruct o as [s |]; simpl.
  - rewrite negb_false_iff, String.eqb_eq. split.
    + intros [H | H]; congruence.
    + intros ->. right. reflexivity.
  - split; auto.
Qed.

Lemma os_mkdir_error fs p e : os_mkdir fs p = inl e -> os_error e = true.
Proof.
  unfold os_mkdir. destruct (stat fs p); [intros [= <-]; reflexivity |].
  destruct (stat fs (parent p)) as [[| c] |]; intros [= <-]; reflexivity.
Qed.

Lemma mkdir_parents_error fuel : forall exist_ok fs p e,
  mkdir_parents fuel exist_ok fs p = inl e -> os_error e = true.
Proof.
  induction fuel as [| fuel IH]; intros exist_ok fs p e; simpl.
  - destruct (os_mkdir fs p) as [e0 |] eqn:E; [| discriminate].
    pose proof (os_mkdir_error _ _ _ E) as He0.
    destruct e0; try discriminate;
      try (destruct (exist_ok && is_dir fs p); [discriminate |]);
      intros [= <-]; reflexivity.
  - destruct (os_mkdir fs p) as [e0 |] eqn:E; [| discriminate].
    pose proof (os_mkdir_error _ _ _ E) as He0.
    destruct e0; try discriminate;
      try (destruct (exist_ok && is_dir fs p); [discriminate |];
           intros [= <-]; reflexivity).
    destruct (mkdir_parents fuel true fs (parent p)) as [e1 | fs1] eqn:E1.
    + intros [= <-]. exact (IH _ _ _ _ E1).
    + destruct (os_mkdir fs1 p) as [e2 |] eqn:E2; [| discriminate].
      destruct (exist_ok && is_dir fs1 p); [discriminate |].
      intros [= <-]. exact (os_mkdir_error _ _ _ E2).
Qed.

Lemma os_error_not_identity e : os_error e = true -> IdentityError e = false.
Proof. destruct e; simpl; congruence. Qed.

(** What [check_first_load] answers when it answers. *)
Lemma check_first_load_value work_path data_path w b w' :
  check_first_load work_path data_path w = (inr b, w') ->
  b = negb (path_exists (fs w) work_path) || negb (path_exists (fs w) data_path).
Proof.
  unfold check_first_load. run.
  destruct (path_exists (fs w) work_path); simpl.
  - destruct (path_exists (fs w) data_path); simpl; intros [= <- <-]; reflexivity.
  - destruct (mkdir (fs w) work_path); simpl; [discriminate |].
    intros [= <- <-]. reflexivity.
Qed.

Lemma check_first_load_error work_path data_path w e w' :
  check_first_load work_path data_path w = (inl e, w') -> os_error e = true.
Proof.
  unfold check_first_load. run.
  destruct (path_exists (fs w) work_path); simpl.
  - destruct (path_exists (fs w) data_path); simpl; discriminate.
  - destruct (mkdir (fs w) work_path) as [e0 |] eqn:E; simpl; [| discriminate].
    intros [= <- <-]. exact (mkdir_parents_error _ _ _ _ _ E).
Qed.

(** The [kwd] loop never touches the module of the class, and the value
    of [dependencies] it starts from shows in [dependencies] only. *)
Lemma setattr_module_file k v a :
  cls_module_file (setattr k v a).1 = cls_module_file a.1.
Proof.
  destruct a as [c extra]. unfold setattr.
  repeat (destruct (String.eqb k _); [destruct v as [[] |]; reflexivity |]).
  destruct (_ || _); reflexivity.
Qed.

Lemma after_kwd_module_file cls kwd :
  cls_module_file (after_kwd cls kwd).1 = cls_module_file cls.
Proof.
  unfold after_kwd.
  change (cls_module_file cls)
    with (cls_module_file (cls, (∅ : gmap string pyval)).1).
  generalize (cls, (∅ : gmap string pyval)).
  induction kwd as [| [k v] kwd IH]; intros a; [reflexivity |].
  cbn [fold_left]. rewrite IH. apply setattr_module_file.
Qed.

Lemma setattr_with_dependencies d k v c extra :
  exists d', setattr k v (with_dependencies d c, extra)
             = (with_dependencies d' (setattr k v (c, extra)).1,
                (setattr k v (c, extra)).2).
Proof.
  unfold setattr.
  repeat (destruct (String.eqb k _);
          [destruct v as [[] |]; eexists; reflexivity |]).
  destruct (_ || _); eexists; reflexivity.
Qed.

Lemma after_kwd_with_dependencies d cls kwd :
  exists d', after_kwd (with_dependencies d cls) kwd
             = (with_dependencies d' (after_kwd cls kwd).1, (after_kwd cls kwd).2).
Proof.
  unfold after_kwd. generalize (∅ : gmap string pyval). revert d cls.
  induction kwd as [| [k v] kwd IH]; intros d cls extra.
  - exists d. reflexivity.
  - cbn [fold_left fst snd].
    destruct (setattr_with_dependencies d k v cls extra) as [d1 H1].
    rewrite H1. destruct (setattr k v (cls, extra)) as [c1 e1]. apply IH.
Qed.

(** The plugin that a successful [__init__] returns. *)
Lemma init_success env cls eb sch dbg kwd w p w' :
  __init__ env cls eb sch dbg kwd w = (inr p, w') ->
  exists w1,
    check_first_load (_work_path p) (_data_path p) w = (inr (first_load p), w1)
    /\ is_dir (fs w1) (_work_path p) = true
    /\ w' = (new_loader (_data_path p) (save_type p) w1).2
    /\ data p = VRef (length (heap w1))
    /\ _data_path p
       = path_join (_work_path p) (path_name (self_path p) ++ "." ++ save_type p)
    /\ _debug p = dbg /\ funcs p = [] /\ configs p = [].
Proof.
  unfold __init__.
  destruct (str_truthy (cls_name cls)); simpl; [| discriminate].
  destruct (str_truthy (cls_version cls)); simpl; [| discriminate].
  destruct (fold_left _ kwd _) as [c extra].
  unfold bind at 1.
  destruct (check_first_load _ _ w) as [[e | first] w1] eqn:E; [discriminate |].
  run. destruct (is_dir (fs w1) _) eqn:Hd; simpl; [| discriminate].
  intros [= <- <-]. simpl. exists w1. repeat split; auto.
Qed.

(** Where a successful [__init__] places the plugin: the paths come from
    the module of the class and the persistent root, the format from the
    class or from [kwd]. *)
Lemma init_paths env cls eb sch dbg kwd w p w' :
  __init__ env cls eb sch dbg kwd w = (inr p, w') ->
  this_file_path p = cls_module_file cls
  /\ self_path p = parent (cls_module_file cls)
  /\ _work_path p
     = path_join (PERSISTENT_DIR env) (path_name (parent (cls_module_file cls)))
  /\ save_type p = cls_save_type (after_kwd cls kwd).1
  /\ _data_path p
     = path_join (_work_path p)
         (path_name (parent (cls_module_file cls)) ++ "." ++ save_type p).
Proof.
  unfold __init__.
  destruct (str_truthy (cls_name cls)); simpl; [| discriminate].
  destruct (str_truthy (cls_version cls)); simpl; [| discriminate].
  match goal with
  | |- context [fold_left _ kwd (with_dependencies ?d cls, ∅)] =>
      change (fold_left (fun a kv => setattr kv.1 kv.2 a) kwd
                (with_dependencies d cls, ∅))
        with (after_kwd (with_dependencies d cls) kwd);
      destruct (after_kwd_with_dependencies d cls kwd) as [d' ->]
  end.
  pose proof (after_kwd_module_file cls kwd) as Hfile.
  destruct (after_kwd cls kwd) as [c extra]. simpl in Hfile. simpl.
  unfold bind at 1.
  destruct (check_first_load _ _ w) as [[e | first] w1] eqn:E; [discriminate |].
  run. destruct (is_dir (fs w1) _) eqn:Hd; simpl; [| discriminate].
  intros [= <- <-]. simpl. rewrite Hfile. repeat split.
Qed.

(** C5: construction fails with the identity error, before anything is
    touched and without returning an instance, exactly when the declared
    name or the declared version is empty or absent; with both non-empty
    no error of construction is the identity error. *)
Theorem init_requires_identity env cls eb sch dbg kwd w :
  (missing (cls_name cls) \/ missing (cls_version cls) ->
     exists e, __init__ env cls eb sch dbg kwd w = (inl e, w)
               /\ IdentityError e = true)
  /\ (~ missing (cls_name cls) -> ~ missing (cls_version cls) ->
        forall e w', __init__ env cls eb sch dbg kwd w = (inl e, w') ->
                     IdentityError e = false).
Proof.
  rewrite !missing_not_truthy. split.
  - intros H. unfold __init__.
    destruct (str_truthy (cls_name cls)); simpl.
    + destruct H as [H | H]; [discriminate |]. rewrite H. simpl.
      eexists. split; [reflexivity | reflexivity].
    + eexists. split; [reflexivity | reflexivity].
  - intros Hn Hv e w'. unfold __init__.
    destruct (str_truthy (cls_name cls)); [| congruence].
    destruct (str_truthy (cls_version cls)); [| congruence]. simpl.
    destruct (fold_left _ kwd _) as [c extra].
    unfold bind at 1.
    destruct (check_first_load _ _ w) as [[e0 | first] w1] eqn:E.
    + intros [= <- <-]. apply os_error_not_identity.
      exact (check_first_load_error _ _ _ _ _ E).
    + run. destruct (is_dir (fs w1) _); simpl; [discriminate |].
      intros [= <- <-]. reflexivity.
Qed.

Lemma init_requires_identity_witness :
  (exists e, __init__ env0 Nameless 0 0 false [] world0 = (inl e, world0)
             /\ IdentityError e = true)
  /\ (forall e w', __init__ env0 Echo 0 0 false [] world0 = (inl e, w') ->
                   IdentityError e = false).
Proof.
  split.
  - apply (init_requires_identity env0 Nameless 0 0 false [] world0).
    left. left. reflexivity.
  - apply (init_requires_identity env0 Echo 0 0 false [] world0).
    + intros [H | H]; discriminate.
    + intros [H | H]; discriminate.
Defined.

(** ** Frame lemmas *)

Section Keeps.
Context {B : Type} (f : Plugin -> B).

Lemma keeps_ret {A} (a : A) : keeps f (ret a).
Proof. intros s. reflexivity. Qed.

Lemma keeps_raise {A} (e : exn) : keeps f (raise (A := A) e).
Proof. intros s. reflexivity. Qed.

Lemma keeps_get : keeps f get.
Proof. intros s. reflexivity. Qed.

Lemma keeps_bind {A C} (c : M State A) (k : A -> M State C) :
  keeps f c -> (forall a, keeps f (k a)) -> keeps f (bind c k).
Proof.
  intros Hc Hk s. unfold bind. specialize (Hc s).
  destruct (c s) as [[e | a] s1]; simpl in *; [exact Hc |].
  rewrite (Hk a s1). exact Hc.
Qed.

Lemma keeps_try_except {A} (c : M State A) (h : exn -> option (M State A)) :
  keeps f c -> (forall e k, h e = Some k -> keeps f k) ->
  keeps f (try_except c h).
Proof.
  intros Hc Hh s. unfold try_except. specialize (Hc s).
  destruct (c s) as [[e | a] s1]; simpl in *; [| exact Hc].
  destruct (h e) as [k |] eqn:E; simpl; [| exact Hc].
  rewrite (Hh e k E s1). exact Hc.
Qed.

Lemma keeps_emit e : keeps f (emit e).
Proof. intros s. reflexivity. Qed.

Lemma keeps_modify_world g : keeps f (modify_world g).
Proof. intros s. reflexivity. Qed.

Lemma keeps_modify_self g :
  (forall p, f (g p) = f p) -> keeps f (modify_self g).
Proof. intros H s. simpl. apply H. Qed.

Lemma keeps_fs_call r : keeps f (fs_call r).
Proof.
  intros s. unfold fs_call. run. destruct (r (fs (world s))); reflexivity.
Qed.

Lemma keeps_as_loader v : keeps f (as_loader v).
Proof. intros s. destruct v; reflexivity. Qed.

Lemma keeps_read_loader l : keeps f (read_loader l).
Proof.
  intros s. unfold read_loader. run. destruct (heap (world s) !! l); reflexivity.
Qed.

Lemma keeps_assign_loader_data target v : keeps f (assign_loader_data target v).
Proof.
  unfold assign_loader_data.
  apply keeps_bind; [apply keeps_as_loader | intros l].
  apply keeps_bind; [apply keeps_read_loader | intros ld].
  apply keeps_modify_world.
Qed.

Lemma keeps_loader_data target : keeps f (loader_data target).
Proof.
  unfold loader_data.
  apply keeps_bind; [apply keeps_as_loader | intros l].
  apply keeps_bind; [apply keeps_read_loader | intros ld].
  apply keeps_ret.
Qed.

Lemma keeps_load env target : keeps f (load env target).
Proof.
  unfold load.
  apply keeps_bind; [apply keeps_as_loader | intros l].
  apply keeps_bind; [apply keeps_read_loader | intros ld].
  apply keeps_bind; [apply keeps_emit | intros _].
  destruct (negb (known_format env (file_type ld))); [apply keeps_raise |].
  apply keeps_bind; [apply keeps_get | intros s].
  destruct (stat (fs (world s)) (file_path ld)) as [[| c] |];
    try apply keeps_raise.
  destruct (decode (file_type ld) c);
    [apply keeps_assign_loader_data | apply keeps_raise].
Qed.

Lemma keeps_save env target : keeps f (save env target).
Proof.
  unfold save.
  apply keeps_bind; [apply keeps_as_loader | intros l].
  apply keeps_bind; [apply keeps_read_loader | intros ld].
  apply keeps_bind; [apply keeps_emit | intros _].
  destruct (negb (known_format env (file_type ld))); [apply keeps_raise |].
  destruct (ldata ld) as [t | l']; [| apply keeps_raise].
  apply keeps_bind; [apply keeps_get | intros s].
  destruct (write_file _ _ _) as [e |];
    [destruct e; apply keeps_raise | apply keeps_modify_world].
Qed.

Lemma keeps_onload_read env : keeps f (onload_read env).
Proof.
  unfold onload_read. apply keeps_try_except.
  - apply keeps_bind; [apply keeps_get | intros s; apply keeps_load].
  - intros e k Hk.
    assert (Hrec : keeps f
              (s <- get ;;
               if debug (self s) then ret tt
               else
                 emit (EvOpenW (_data_path (self s))) ;;
                 fs_call (fun fs => write_file fs (_data_path (self s)) (Raw "")) ;;
                 (s <- get ;; save env (data (self s))) ;;
                 (s <- get ;; load env (data (self s))))).
    { apply keeps_bind; [apply keeps_get | intros s].
      destruct (debug (self s)); [apply keeps_ret |].
      apply keeps_bind; [apply keeps_emit | intros _].
      apply keeps_bind; [apply keeps_fs_call | intros _].
      apply keeps_bind.
      - apply keeps_bind; [apply keeps_get | intros s1; apply keeps_save].
      - intros _. apply keeps_bind; [apply keeps_get | intros s1; apply keeps_load]. }
    destruct e; try discriminate; injection Hk as <-; exact Hrec.
Qed.

Lemma keeps_unload_persist env : keeps f (unload_persist env).
Proof.
  unfold unload_persist. apply keeps_try_except.
  - apply keeps_bind; [apply keeps_get | intros s].
    destruct (debug (self s)); [| apply keeps_save].
    apply keeps_bind; [apply keeps_emit | intros _].
    apply keeps_bind; [apply keeps_loader_data | intros v].
    apply keeps_emit.
  - intros e k Hk.
    destruct e; try discriminate; injection Hk as <-;
      (apply keeps_bind; [apply keeps_get | intros s; apply keeps_raise]).
Qed.

End Keeps.

Section KeepsMethods.
Context {B : Type} (f : Plugin -> B).
Hypothesis f_set_funcs : forall x p, f (set_funcs x p) = f p.
Hypothesis f_set_configs : forall x p, f (set_configs x p) = f p.
Hypothesis f_set_data : forall x p, f (set_data x p) = f p.

Lemma keeps_call_hook id (hk : hook) arg kwd :
  (forall p w, f (hk arg kwd p w).1.2 = f p) ->
  keeps f (call_hook id hk arg kwd).
Proof.
  intros H s. unfold call_hook. run. specialize (H (self s) (world s)).
  destruct (hk arg kwd (self s) (world s)) as [[[e |] p] w]; exact H.
Qed.

Lemma keeps_unregister_handlers : keeps f unregister_handlers.
Proof.
  unfold unregister_handlers.
  apply keeps_bind; [apply keeps_emit | intros _].
  apply keeps_bind; [apply keeps_get | intros s].
  apply keeps_bind; [apply keeps_modify_world | intros _].
  apply keeps_modify_self. intros p. apply f_set_funcs.
Qed.

Lemma keeps__register_func n h flt raw perm pr :
  keeps f (_register_func n h flt raw perm pr).
Proof.
  unfold _register_func.
  apply keeps_bind; [apply keeps_get | intros s].
  destruct (forallb _ _); [| apply keeps_raise].
  apply keeps_modify_self. intros p. apply f_set_funcs.
Qed.

Lemma keeps_register_user_func n h flt raw pr :
  keeps f (register_user_func n h flt raw pr).
Proof.
  unfold register_user_func.
  destruct flt, raw; try apply keeps__register_func. apply keeps_raise.
Qed.

Lemma keeps_register_admin_func n h flt raw pr :
  keeps f (register_admin_func n h flt raw pr).
Proof.
  unfold register_admin_func.
  destruct flt, raw; try apply keeps__register_func. apply keeps_raise.
Qed.

Lemma keeps_register_config k d r : keeps f (register_config k d r).
Proof.
  unfold register_config. apply keeps_modify_self.
  intros p. apply f_set_configs.
Qed.

Lemma keeps_onload_adopt : keeps f onload_adopt.
Proof.
  unfold onload_adopt.
  apply keeps_bind; [apply keeps_get | intros s].
  destruct (isinstance_dict_list (data (self s))); [| apply keeps_ret].
  apply keeps_bind.
  { intros s1. destruct (new_loader _ _ _). reflexivity. }
  intros l. apply keeps_bind.
  { apply keeps_modify_self. intros p. apply f_set_data. }
  intros _. apply keeps_bind.
  { apply keeps_bind; [apply keeps_get | intros s1; apply keeps_ret]. }
  intros rhs. apply keeps_bind.
  { apply keeps_bind; [apply keeps_get | intros s1; apply keeps_ret]. }
  intros target. apply keeps_assign_loader_data.
Qed.

Lemma keeps_invoke env h call :
  (forall arg kwd p w, f (_init_ h arg kwd p w).1.2 = f p) ->
  (forall arg kwd p w, f (on_load h arg kwd p w).1.2 = f p) ->
  (forall arg kwd p w, f (_close_ h arg kwd p w).1.2 = f p) ->
  (forall arg kwd p w, f (on_close h arg kwd p w).1.2 = f p) ->
  keeps f (invoke env h call).
Proof.
  intros Hinit Hload Hclose Honclose. destruct call; simpl.
  - unfold __onload__.
    apply keeps_bind; [apply keeps_onload_adopt | intros _].
    apply keeps_bind; [apply keeps_onload_read | intros _].
    apply keeps_bind; [apply keeps_call_hook, Hinit | intros _].
    apply keeps_call_hook, Hload.
  - unfold __unload__.
    apply keeps_bind; [apply keeps_unregister_handlers | intros _].
    apply keeps_bind; [apply keeps_call_hook, Hclose | intros _].
    apply keeps_bind; [apply keeps_call_hook, Honclose | intros _].
    apply keeps_unload_persist.
  - apply keeps_unregister_handlers.
  - apply keeps__register_func.
  - apply keeps_register_user_func.
  - apply keeps_register_admin_func.
  - apply keeps__register_func.
  - apply keeps_register_config.
Qed.

End KeepsMethods.

(** C4: [first_load] is fixed at construction and never changed by a
    method. A successful [__init__] places the working directory under the
    persistent root, named after the directory of the plugin's module, and
    the data file inside it, named after that directory and the save
    format; it sets [first_load] to true exactly when, on the file system
    it found, that working directory or that data file did not exist, and
    to false when both existed. No method of the class assigns the flag
    afterwards: whatever method is called in whatever state, with hooks
    that do not assign it themselves, its value after the call is its value
    before. *)
Theorem first_load_flag env cls eb sch dbg kwd w p w' :
  __init__ env cls eb sch dbg kwd w = (inr p, w') ->
  let plugin_dir_name := path_name (parent (cls_module_file cls)) in
  let work_dir := path_join (PERSISTENT_DIR env) plugin_dir_name in
  let data_file :=
    path_join work_dir
      (plugin_dir_name ++ "." ++ cls_save_type (after_kwd cls kwd).1) in
  (_work_path p = work_dir /\ _data_path p = data_file)
  /\ (first_load p = true <->
        path_exists (fs w) work_dir = false
        \/ path_exists (fs w) data_file = false)
  /\ (first_load p = false <->
        path_exists (fs w) work_dir = true
        /\ path_exists (fs w) data_file = true)
  /\ (first_load p = true <->
        path_exists (fs w) (_work_path p) = false
        \/ path_exists (fs w) (_data_path p) = false)
  /\ (first_load p = false <->
        path_exists (fs w) (_work_path p) = true
        /\ path_exists (fs w) (_data_path p) = true)
  /\ forall h call s,
       hooks_keep_first_load h ->
       first_load (self (invoke env h call s).2) = first_load (self s).
Proof.
  intros Hinit plugin_dir_name work_dir data_file.
  destruct (init_paths _ _ _ _ _ _ _ _ _ Hinit)
    as (_ & _ & Hwork & Hfmt & Hdata).
  assert (Hw : _work_path p = work_dir) by exact Hwork.
  assert (Hd : _data_path p = data_file).
  { rewrite Hdata, Hwork, Hfmt. reflexivity. }
  destruct (init_success _ _ _ _ _ _ _ _ _ Hinit) as (w1 & Hfirst & _).
  apply check_first_load_value in Hfirst. rewrite Hfirst, Hw, Hd.
  assert (Htrue : negb (path_exists (fs w) work_dir)
                  || negb (path_exists (fs w) data_file) = true <->
                  path_exists (fs w) work_dir = false
                  \/ path_exists (fs w) data_file = false).
  { destruct (path_exists (fs w) work_dir),
             (path_exists (fs w) data_file); simpl; intuition congruence. }
  assert (Hfalse : negb (path_exists (fs w) work_dir)
                   || negb (path_exists (fs w) data_file) = false <->
                   path_exists (fs w) work_dir = true
                   /\ path_exists (fs w) data_file = true).
  { destruct (path_exists (fs w) work_dir),
             (path_exists (fs w) data_file); simpl; intuition congruence. }
  split; [split; reflexivity |].
  split; [exact Htrue |]. split; [exact Hfalse |].
  split; [exact Htrue |]. split; [exact Hfalse |].
  intros h call s (H1 & H2 & H3 & H4).
  apply (keeps_invoke first_load); auto.
Qed.

Lemma first_load_flag_witness :
  (_work_path (echo_plugin false) = ["data"; "echo"]
   /\ _data_path (echo_plugin false) = ["data"; "echo"; "echo.json"]
   /\ first_load (echo_plugin false) = true
   /\ path_exists (fs world0) ["data"; "echo"] = false)
  /\ (first_load echo_plugin_again = false
      /\ path_exists (fs world_saved) ["data"; "echo"] = true
      /\ path_exists (fs world_saved) ["data"; "echo"; "echo.json"] = true)
  /\ first_load (self (invoke env0 default_hooks (CallUnload [] [])
                         (echo_state false)).2) = true.
Proof.
  assert (Hinit : __init__ env0 Echo 0 0 false [] world0
                  = (inr (echo_plugin false), echo_world))
    by (vm_compute; reflexivity).
  assert (Hagain : exists w, __init__ env0 Echo 0 0 false [] world_saved
                             = (inr echo_plugin_again, w))
    by (eexists; vm_compute; reflexivity).
  destruct Hagain as [w Hagain].
  destruct (first_load_flag _ _ _ _ _ _ _ _ _ Hinit)
    as ((Hwork & Hdata) & Htrue & _ & _ & _ & Hkeep).
  destruct (first_load_flag _ _ _ _ _ _ _ _ _ Hagain)
    as (_ & _ & Hfalse & _ & _ & _).
  assert (Hmissing : path_exists (fs world0) ["data"; "echo"] = false)
    by (vm_compute; reflexivity).
  assert (Hboth : path_exists (fs world_saved) ["data"; "echo"] = true
                  /\ path_exists (fs world_saved) ["data"; "echo"; "echo.json"]
                     = true)
    by (split; vm_compute; reflexivity).
  split; [split; [exact Hwork |]; split; [exact Hdata |];
          split; [apply Htrue; left; exact Hmissing | exact Hmissing] |].
  split; [split; [apply Hfalse; exact Hboth | exact Hboth] |].
  rewrite Hkeep; [apply Htrue; left; exact Hmissing |].
  repeat split; intros arg kwd p w0; reflexivity.
Defined.

(** ** Running the persistence engine *)

Arguments stat : simpl never.
Arguments write_file : simpl never.
Arguments decode : simpl never.
Arguments known_format : simpl never.

Lemma logged_logged a b s : logged a (logged b s) = logged (b ++ a) s.
Proof. unfold logged. simpl. rewrite <- app_assoc. reflexivity. Qed.

Lemma removelast_shorter (p : path) : p <> [] -> removelast p <> p.
Proof.
  intros Hp E. apply (f_equal (@length string)) in E.
  destruct (exists_last Hp) as (q & x & ->).
  rewrite removelast_last, length_app in E. simpl in E. lia.
Qed.

Lemma stat_insert_eq fs (p : path) n :
  p <> [] -> stat (<[p := n]> fs) p = Some n.
Proof.
  intros Hp. unfold stat. destruct p; [congruence |]. apply lookup_insert_eq.
Qed.

Lemma stat_insert_ne fs (p q : path) n :
  q <> p -> stat (<[p := n]> fs) q = stat fs q.
Proof.
  intros Hq. unfold stat. destruct q; [reflexivity |].
  apply lookup_insert_ne. congruence.
Qed.

Lemma stat_nonroot fs (p : path) :
  stat fs p <> Some Dir -> p <> [].
Proof. intros H ->. apply H. reflexivity. Qed.

(** Writing a file into an existing directory, over nothing or over a
    file. *)
Lemma write_file_ok fs (p : path) c :
  is_dir fs (parent p) = true ->
  stat fs p <> Some Dir ->
  write_file fs p c = inr (<[p := File c]> fs).
Proof.
  unfold write_file, is_dir. intros Hd Hp.
  destruct (stat fs (parent p)) as [[| c0] |]; try discriminate.
  destruct (stat fs p) as [[| c1] |]; congruence.
Qed.

Lemma load_unknown_format env s l ld :
  heap (world s) !! l = Some ld ->
  known_format env (file_type ld) = false ->
  load env (VRef l) s = (inl FileTypeUnknownError, logged [EvLoad l] s).
Proof.
  intros Hl Hk. unfold load, as_loader, read_loader. run.
  rewrite Hl. simpl. rewrite Hk. reflexivity.
Qed.

Lemma load_absent env s l ld :
  heap (world s) !! l = Some ld ->
  known_format env (file_type ld) = true ->
  stat (fs (world s)) (file_path ld) = None ->
  load env (VRef l) s = (inl FileNotFoundError, logged [EvLoad l] s).
Proof.
  intros Hl Hk Hs. unfold load, as_loader, read_loader. run.
  rewrite Hl. simpl. rewrite Hk. simpl. rewrite Hs. reflexivity.
Qed.

Lemma load_malformed env s l ld c :
  heap (world s) !! l = Some ld ->
  known_format env (file_type ld) = true ->
  stat (fs (world s)) (file_path ld) = Some (File c) ->
  decode (file_type ld) c = None ->
  load env (VRef l) s = (inl LoadError, logged [EvLoad l] s).
Proof.
  intros Hl Hk Hs Hd. unfold load, as_loader, read_loader. run.
  rewrite Hl. simpl. rewrite Hk. simpl. rewrite Hs, Hd. reflexivity.
Qed.

Lemma load_ok env s l ld c t :
  heap (world s) !! l = Some ld ->
  known_format env (file_type ld) = true ->
  stat (fs (world s)) (file_path ld) = Some (File c) ->
  decode (file_type ld) c = Some t ->
  load env (VRef l) s
  = (inr tt,
     mkState (self s)
       (set_heap (<[l := mkLoader (file_path ld) (file_type ld) (VTree t)]>
                    (heap (world s))) (world s))
       (out s ++ [EvLoad l])%list).
Proof.
  intros Hl Hk Hs Hd. unfold load, assign_loader_data, as_loader, read_loader.
  run. rewrite Hl. simpl. rewrite Hk. simpl. rewrite Hs, Hd. simpl.
  rewrite Hl. reflexivity.
Qed.

(** The three named causes make [load] raise one of the three exceptions
    that [__onload__] catches, and leave everything but the record of the
    call as it was. *)
Lemma load_fails env s l ld :
  heap (world s) !! l = Some ld ->
  unknown_format env ld \/ file_absent (world s) ld \/ file_malformed (world s) ld ->
  exists e,
    load env (VRef l) s = (inl e, logged [EvLoad l] s)
    /\ (e = FileTypeUnknownError \/ e = LoadError \/ e = FileNotFoundError).
Proof.
  intros Hl Hcause.
  destruct (known_format env (file_type ld)) eqn:Hk.
  - destruct Hcause as [Hu | [Ha | (c & Hs & Hd)]].
    + unfold unknown_format in Hu. congruence.
    + exists FileNotFoundError. split; [| auto].
      apply (load_absent _ _ _ ld); assumption.
    + exists LoadError. split; [| auto].
      apply (load_malformed _ _ _ ld c); assumption.
  - exists FileTypeUnknownError. split; [| auto].
    apply (load_unknown_format _ _ _ ld); assumption.
Qed.

Lemma save_ok env s l ld t fs' :
  heap (world s) !! l = Some ld ->
  known_format env (file_type ld) = true ->
  ldata ld = VTree t ->
  write_file (fs (world s)) (file_path ld) (Encoded (file_type ld) t) = inr fs' ->
  save env (VRef l) s
  = (inr tt, mkState (self s) (set_fs fs' (world s)) (out s ++ [EvSave l])%list).
Proof.
  intros Hl Hk Ht Hw. unfold save, as_loader, read_loader. run.
  rewrite Hl. simpl. rewrite Hk. simpl. rewrite Ht. simpl.
  rewrite Hw. reflexivity.
Qed.

Lemma save_unknown_format env s l ld :
  heap (world s) !! l = Some ld ->
  known_format env (file_type ld) = false ->
  save env (VRef l) s = (inl SaveError, logged [EvSave l] s).
Proof.
  intros Hl Hk. unfold save, as_loader, read_loader. run.
  rewrite Hl. simpl. rewrite Hk. reflexivity.
Qed.

(** Whatever happens, a call of [save] on a loader is on record as one
    [EvSave], and the plugin object is not touched. *)
Lemma save_called env s l ld :
  heap (world s) !! l = Some ld ->
  exists r w', save env (VRef l) s
               = (r, mkState (self s) w' (out s ++ [EvSave l])%list).
Proof.
  intros Hl. unfold save, as_loader, read_loader. run. rewrite Hl. simpl.
  destruct (known_format env (file_type ld)); simpl; [| eauto].
  destruct (ldata ld) as [t | l']; simpl; [| eauto].
  destruct (write_file _ _ _) as [e | fs']; simpl; eauto.
Qed.

(** ** Loading *)

Lemma call_hook_eval id (hk : hook) arg kwd s :
  call_hook id hk arg kwd s
  = match hk arg kwd (self s) (world s) with
    | (None, p, w) =>
        (inr tt, mkState p w (out s ++ [EvHook id (funcs (self s))])%list)
    | (Some e, p, w) =>
        (inl e, mkState p w (out s ++ [EvHook id (funcs (self s))])%list)
    end.
Proof. reflexivity. Qed.

(** The two init hooks: the first one is always entered. *)
Lemma init_hooks_entered h s :
  exists tail,
    out ((call_hook HInit (_init_ h) [] [] ;;
          call_hook HOnLoad (on_load h) [] []) s).2
    = (out s ++ EvHook HInit (funcs (self s)) :: tail)%list.
Proof.
  unfold bind at 1. rewrite call_hook_eval.
  destruct (_init_ h [] [] (self s) (world s)) as [[[e |] p] w]; simpl.
  - exists []. reflexivity.
  - rewrite call_hook_eval. simpl.
    destruct (on_load h [] [] p w) as [[[e |] p'] w']; simpl;
      rewrite <- app_assoc; eexists; reflexivity.
Qed.

Lemma onload_adopt_loader s l :
  data (self s) = VRef l -> onload_adopt s = (inr tt, s).
Proof. intros H. unfold onload_adopt. run. rewrite H. reflexivity. Qed.

(** [__onload__] on a plugin whose [data] is a loader: the read, then the
    hooks. *)
Lemma onload_of_loader env h s l :
  data (self s) = VRef l ->
  __onload__ env h s
  = (onload_read env ;;
     call_hook HInit (_init_ h) [] [] ;;
     call_hook HOnLoad (on_load h) [] []) s.
Proof.
  intros H. unfold __onload__. unfold bind at 1.
  rewrite (onload_adopt_loader _ _ H). reflexivity.
Qed.

Lemma onload_read_debug env s l ld :
  debug (self s) = true ->
  data (self s) = VRef l ->
  heap (world s) !! l = Some ld ->
  unknown_format env ld \/ file_absent (world s) ld \/ file_malformed (world s) ld ->
  onload_read env s = (inr tt, logged [EvLoad l] s).
Proof.
  intros Hdbg Hdata Hl Hcause.
  destruct (load_fails env s l ld Hl Hcause) as (e & Hload & He).
  unfold onload_read, try_except. unfold bind at 1, get at 1.
  rewrite Hdata, Hload.
  destruct He as [-> | [-> | ->]]; run; rewrite Hdbg; reflexivity.
Qed.

Lemma onload_read_recovers env s l ld t :
  debug (self s) = false ->
  owns_loader s l ld ->
  known_format env (file_type ld) = true ->
  ldata ld = VTree t ->
  is_dir (fs (world s)) (parent (_data_path (self s))) = true ->
  file_absent (world s) ld \/ file_malformed (world s) ld ->
  onload_read env s
  = (inr tt,
     mkState (self s)
       (set_fs (<[_data_path (self s) := File (Encoded (file_type ld) t)]>
                  (fs (world s))) (world s))
       (out s ++ [EvLoad l; EvOpenW (_data_path (self s)); EvSave l; EvLoad l])%list).
Proof.
  intros Hdbg (Hdata & Hl & Hpath) Hk Ht Hdir Hcause.
  assert (Hnodir : stat (fs (world s)) (_data_path (self s)) <> Some Dir).
  { rewrite <- Hpath.
    destruct Hcause as [Ha | (c & Hs & _)]; [rewrite Ha | rewrite Hs]; discriminate. }
  pose proof (stat_nonroot _ _ Hnodir) as Hnonroot.
  destruct (load_fails env s l ld Hl (or_intror Hcause)) as (e & Hload & He).
  unfold onload_read, try_except. unfold bind at 1, get at 1.
  rewrite Hdata, Hload.
  set (p := _data_path (self s)) in *.
  set (fs1 := <[p := File (Raw "")]> (fs (world s))).
  set (s1 := mkState (self s) (set_fs fs1 (world s))
               (out s ++ [EvLoad l; EvOpenW p])%list).
  assert (Hrecover :
    (s <- get ;;
     if debug (self s) then ret tt
     else
       emit (EvOpenW (_data_path (self s))) ;;
       fs_call (fun fs => write_file fs (_data_path (self s)) (Raw "")) ;;
       (s <- get ;; save env (data (self s))) ;;
       (s <- get ;; load env (data (self s)))) (logged [EvLoad l] s)
    = ((s <- get ;; save env (data (self s))) ;;
       (s <- get ;; load env (data (self s)))) s1).
  { unfold fs_call. run. rewrite Hdbg. fold p.
    rewrite (write_file_ok _ _ _ Hdir Hnodir). simpl.
    unfold s1, set_fs. simpl. rewrite <- app_assoc. reflexivity. }
  assert (Hsave : save env (VRef l) s1
                  = (inr tt,
                     mkState (self s)
                       (set_fs (<[p := File (Encoded (file_type ld) t)]> (fs (world s)))
                          (world s))
                       (out s ++ [EvLoad l; EvOpenW p; EvSave l])%list)).
  { rewrite (save_ok env s1 l ld t
               (<[p := File (Encoded (file_type ld) t)]> (fs (world s)))); try assumption.
    - unfold s1. simpl. rewrite <- app_assoc. reflexivity.
    - simpl. rewrite Hpath. fold p. rewrite write_file_ok.
      + unfold fs1. rewrite insert_insert_eq. reflexivity.
      + unfold is_dir, fs1. rewrite stat_insert_ne; [exact Hdir |].
        apply removelast_shorter. exact Hnonroot.
      + unfold fs1. rewrite stat_insert_eq; [discriminate | exact Hnonroot]. }
  set (s2 := mkState (self s)
               (set_fs (<[p := File (Encoded (file_type ld) t)]> (fs (world s)))
                  (world s))
               (out s ++ [EvLoad l; EvOpenW p; EvSave l])%list) in *.
  assert (Hreload : load env (VRef l) s2
                    = (inr tt,
                       mkState (self s)
                         (set_fs (<[p := File (Encoded (file_type ld) t)]> (fs (world s)))
                            (world s))
                         (out s ++ [EvLoad l; EvOpenW p; EvSave l; EvLoad l])%list)).
  { rewrite (load_ok env s2 l ld (Encoded (file_type ld) t) t); try assumption.
    - unfold s2, set_heap, set_fs. simpl.
      rewrite <- app_assoc. simpl.
      replace (mkLoader (file_path ld) (file_type ld) (VTree t)) with ld
        by (destruct ld; simpl in *; congruence).
      rewrite (list_insert_id _ _ _ Hl). reflexivity.
    - simpl. rewrite Hpath. fold p. apply stat_insert_eq. exact Hnonroot.
    - unfold decode. rewrite String.eqb_refl. reflexivity. }
  assert (Hrest : ((s <- get ;; save env (data (self s))) ;;
                   (s <- get ;; load env (data (self s)))) s1
                  = load env (VRef l) s2).
  { unfold bind at 1. unfold bind at 1, get at 1.
    replace (data (self s1)) with (VRef l) by (symmetry; exact Hdata).
    rewrite Hsave. unfold bind, get. simpl. rewrite Hdata. reflexivity. }
  destruct He as [-> | [-> | ->]]; cbv beta iota;
    rewrite Hrecover, Hrest, Hreload; reflexivity.
Qed.

Lemma onload_default_hooks env s l :
  data (self s) = VRef l ->
  __onload__ env default_hooks s
  = match onload_read env s with
    | (inr _, s1) =>
        (inr tt, logged [EvHook HInit (funcs (self s1));
                         EvHook HOnLoad (funcs (self s1))] s1)
    | (inl e, s1) => (inl e, s1)
    end.
Proof.
  intros H. rewrite (onload_of_loader _ _ _ _ H). unfold bind at 1.
  destruct (onload_read env s) as [[e | []] s1]; [reflexivity |].
  unfold bind. rewrite call_hook_eval. simpl. rewrite call_hook_eval. simpl.
  unfold logged. rewrite <- app_assoc. reflexivity.
Qed.

Lemma onload_hooks_entered env h s l s1 :
  data (self s) = VRef l ->
  onload_read env s = (inr tt, s1) ->
  exists tail,
    out (__onload__ env h s).2
    = (out s1 ++ EvHook HInit (funcs (self s1)) :: tail)%list.
Proof.
  intros H Hread. rewrite (onload_of_loader _ _ _ _ H). unfold bind at 1.
  rewrite Hread. apply init_hooks_entered.
Qed.

Lemma file_name_nonempty (stem ext : string) :
  String.eqb (stem ++ "." ++ ext) "" = false.
Proof. destruct stem; reflexivity. Qed.

(** What [__init__] leaves in [data]: a loader of its own for the
    plugin's data path and format, holding the empty tree, inside a
    working directory that exists. *)
Lemma init_loader env cls eb sch dbg kwd w p w' o :
  __init__ env cls eb sch dbg kwd w = (inr p, w') ->
  exists l,
    owns_loader (mkState p w' o) l
      (mkLoader (_data_path p) (save_type p) (VTree (TDict [])))
    /\ is_dir (fs w') (parent (_data_path p)) = true.
Proof.
  intros Hinit.
  destruct (init_success _ _ _ _ _ _ _ _ _ Hinit)
    as (w1 & _ & Hdir & -> & Hdata & Hpath & _).
  exists (length (heap w1)). split; [split; [exact Hdata | split] |].
  - simpl. apply list_lookup_middle. reflexivity.
  - reflexivity.
  - simpl. rewrite Hpath. unfold path_join, parent.
    rewrite file_name_nonempty, removelast_last. exact Hdir.
Qed.

(** C8: in debug mode a read that fails for one of the three named causes
    is swallowed. The read stage returns; nothing is written (the world,
    loader included, is what it was, so the in-memory value is what it
    was) and only the one call of [load] is on record; [__onload__] goes
    on to the init hooks whatever they are, and with the hooks of the base
    class it returns. *)
Theorem onload_debug_swallows env s l ld :
  debug (self s) = true ->
  data (self s) = VRef l ->
  heap (world s) !! l = Some ld ->
  unknown_format env ld \/ file_absent (world s) ld \/ file_malformed (world s) ld ->
  onload_read env s = (inr tt, logged [EvLoad l] s)
  /\ heap (world (onload_read env s).2) !! l = Some ld
  /\ fs (world (onload_read env s).2) = fs (world s)
  /\ __onload__ env default_hooks s
     = (inr tt, logged [EvLoad l; EvHook HInit (funcs (self s));
                        EvHook HOnLoad (funcs (self s))] s)
  /\ forall h, exists tail,
       out (__onload__ env h s).2
       = (out s ++ EvLoad l :: EvHook HInit (funcs (self s)) :: tail)%list.
Proof.
  intros Hdbg Hdata Hl Hcause.
  pose proof (onload_read_debug env s l ld Hdbg Hdata Hl Hcause) as Hread.
  split; [exact Hread |]. rewrite Hread. simpl.
  split; [exact Hl |]. split; [reflexivity |]. split.
  - rewrite (onload_default_hooks _ _ _ Hdata), Hread.
    rewrite logged_logged. reflexivity.
  - intros h.
    destruct (onload_hooks_entered env h s l _ Hdata Hread) as (tail & Htail).
    exists tail. rewrite Htail. simpl. rewrite <- app_assoc. reflexivity.
Qed.

Lemma onload_debug_swallows_witness :
  let s := echo_state true in
  onload_read env0 s = (inr tt, logged [EvLoad 0] s)
  /\ __onload__ env0 default_hooks s
     = (inr tt, logged [EvLoad 0; EvHook HInit []; EvHook HOnLoad []] s).
Proof.
  intros s.
  destruct (onload_debug_swallows env0 s 0
              (mkLoader ["data"; "echo"; "echo.json"] "json" (VTree (TDict []))))
    as (Hread & _ & _ & Hload & _).
  - reflexivity.
  - reflexivity.
  - reflexivity.
  - right. left. vm_compute. reflexivity.
  - split; [exact Hread | exact Hload].
Defined.

(** C2, the claim as written, fails. With a format the engine does not
    know, the data file is emptied and then [save] fails on the unknown
    format in its turn, outside the [try], so [__onload__] raises.
    What is saved and read back is the tree the loader holds, which need
    not be the empty one. And when the working directory is gone, opening
    the data file for writing raises. *)
Lemma onload_recovery_counterexample :
  (__init__ env0 EchoXyz 0 0 false [] world0
   = (inr (self xyz_state), world xyz_state)
   /\ debug (self xyz_state) = false
   /\ (exists ld, owns_loader xyz_state 0 ld /\ unknown_format env0 ld)
   /\ (__onload__ env0 default_hooks xyz_state).1 = inl SaveError
   /\ stat (fs (world (__onload__ env0 default_hooks xyz_state).2))
        (_data_path (self xyz_state)) = Some (File (Raw "")))
  /\ (debug (self echo_state_kv) = false
      /\ (exists ld, owns_loader echo_state_kv 0 ld
                     /\ file_absent (world echo_state_kv) ld)
      /\ (__onload__ env0 default_hooks echo_state_kv).1 = inr tt
      /\ (ldata <$> heap (world (__onload__ env0 default_hooks echo_state_kv).2) !! 0)
         = Some (VTree kv)
      /\ kv <> TDict [])
  /\ (debug (self echo_state_no_dir) = false
      /\ (exists ld, owns_loader echo_state_no_dir 0 ld
                     /\ file_absent (world echo_state_no_dir) ld)
      /\ (__onload__ env0 default_hooks echo_state_no_dir).1
         = inl FileNotFoundError).
Proof.
  split.
  - split; [vm_compute; reflexivity |]. split; [reflexivity |]. split.
    + eexists. split; [repeat split |]; vm_compute; reflexivity.
    + split; vm_compute; reflexivity.
  - split; [split; [reflexivity |]; split |].
    + eexists. split; [repeat split |]; vm_compute; reflexivity.
    + split; [vm_compute; reflexivity |].
      split; [vm_compute; reflexivity | discriminate].
    + split; [reflexivity |]. split.
      * eexists. split; [repeat split |]; vm_compute; reflexivity.
      * vm_compute. reflexivity.
Qed.

(** C2, amended: outside debug mode, for a plugin whose loader is bound to
    its data path with a format the engine knows and holds a tree, inside
    a working directory that exists, a read that fails because the file is
    absent or malformed does not make the read stage raise: the file is
    emptied, the tree is saved and read back, in this order, and afterwards
    the loader holds the tree it held before and the file holds its
    encoding. [__onload__] goes on to the init hooks, and returns with the
    hooks of the base class. The loader of a plugin that has just been
    constructed is such a loader and holds the empty tree. *)
Theorem onload_recovers env s l ld t :
  debug (self s) = false ->
  owns_loader s l ld ->
  known_format env (file_type ld) = true ->
  ldata ld = VTree t ->
  is_dir (fs (world s)) (parent (_data_path (self s))) = true ->
  file_absent (world s) ld \/ file_malformed (world s) ld ->
  let s' :=
    mkState (self s)
      (set_fs (<[_data_path (self s) := File (Encoded (file_type ld) t)]>
                 (fs (world s))) (world s))
      (out s ++ [EvLoad l; EvOpenW (_data_path (self s)); EvSave l; EvLoad l])%list in
  onload_read env s = (inr tt, s')
  /\ (ldata <$> heap (world s') !! l) = Some (VTree t)
  /\ __onload__ env default_hooks s
     = (inr tt, logged [EvHook HInit (funcs (self s));
                        EvHook HOnLoad (funcs (self s))] s')
  /\ (forall h, exists tail,
        out (__onload__ env h s).2
        = (out s' ++ EvHook HInit (funcs (self s)) :: tail)%list)
  /\ (forall cls eb sch dbg kwd w p w' o,
        __init__ env cls eb sch dbg kwd w = (inr p, w') ->
        exists l0,
          owns_loader (mkState p w' o) l0
            (mkLoader (_data_path p) (save_type p) (VTree (TDict [])))
          /\ is_dir (fs w') (parent (_data_path p)) = true).
Proof.
  intros Hdbg Hown Hk Ht Hdir Hcause s'.
  pose proof (onload_read_recovers env s l ld t Hdbg Hown Hk Ht Hdir Hcause)
    as Hread.
  fold s' in Hread. destruct Hown as (Hdata & Hl & Hpath).
  split; [exact Hread |]. split.
  - simpl. rewrite Hl. simpl. rewrite Ht. reflexivity.
  - split.
    + rewrite (onload_default_hooks _ _ _ Hdata), Hread. reflexivity.
    + split.
      * intros h. exact (onload_hooks_entered env h s l s' Hdata Hread).
      * intros cls eb sch dbg kwd w p w' o Hinit.
        exact (init_loader _ _ _ _ _ _ _ _ _ o Hinit).
Qed.

Lemma onload_recovers_witness :
  let s := echo_state false in
  let file := ["data"; "echo"; "echo.json"] in
  (__onload__ env0 default_hooks s).1 = inr tt
  /\ (ldata <$> heap (world (__onload__ env0 default_hooks s).2) !! 0)
     = Some (VTree (TDict []))
  /\ fs (world (__onload__ env0 default_hooks s).2)
     = <[file := File (Encoded "json" (TDict []))]> (fs (world s)).
Proof.
  intros s file.
  destruct (onload_recovers env0 s 0
              (mkLoader file "json" (VTree (TDict []))) (TDict []))
    as (_ & Htree & Hload & _).
  - reflexivity.
  - repeat split.
  - reflexivity.
  - reflexivity.
  - vm_compute. reflexivity.
  - left. vm_compute. reflexivity.
  - rewrite Hload. split; [reflexivity |]. split; [exact Htree | reflexivity].
Defined.

(** C10: when [__onload__] finds a plain dict or list in [data], it binds
    [data] to a new loader object (at a location that was free) for the
    plugin's data path and format, and then assigns to that loader's [data]
    attribute the value of [self.data] as it is by then, which is the
    loader itself: the loader refers to itself and the dict or list is
    referred to by nothing. The read and the hooks go on from that state. *)
Theorem onload_adopt_discards env h s :
  (exists items, data (self s) = VTree (TDict items))
  \/ (exists items, data (self s) = VTree (TList items)) ->
  let l := length (heap (world s)) in
  let loader := mkLoader (_data_path (self s)) (save_type (self s)) (VRef l) in
  let s1 := mkState (set_data (VRef l) (self s))
              (set_heap (heap (world s) ++ [loader])%list (world s)) (out s) in
  heap (world s) !! l = None
  /\ onload_adopt s = (inr tt, s1)
  /\ data (self s1) = VRef l
  /\ heap (world s1) !! l = Some loader
  /\ ldata loader = data (self s1)
  /\ __onload__ env h s
     = (onload_read env ;;
        call_hook HInit (_init_ h) [] [] ;;
        call_hook HOnLoad (on_load h) [] []) s1.
Proof.
  intros Hdata l loader s1.
  assert (Hinst : isinstance_dict_list (data (self s)) = true).
  { destruct Hdata as [[items ->] | [items ->]]; reflexivity. }
  assert (Hadopt : onload_adopt s = (inr tt, s1)).
  { unfold onload_adopt, assign_loader_data, as_loader, read_loader. run.
    rewrite Hinst. simpl.
    rewrite (list_lookup_middle (heap (world s)) []
               (mkLoader (_data_path (self s)) (save_type (self s))
                  (VTree (TDict []))) (length (heap (world s))) eq_refl).
    simpl. unfold s1, set_heap. simpl. f_equal. f_equal. f_equal.
    rewrite <- (Nat.add_0_r (length (heap (world s)))) at 1.
    rewrite insert_app_r. reflexivity. }
  split; [apply lookup_ge_None_2; unfold l; lia |].
  split; [exact Hadopt |]. split; [reflexivity |].
  split; [simpl; apply list_lookup_middle; reflexivity |].
  split; [reflexivity |].
  unfold __onload__. unfold bind at 1. rewrite Hadopt. reflexivity.
Qed.

Lemma onload_adopt_discards_witness :
  let s := echo_state_dict in
  onload_adopt s
  = (inr tt,
     mkState (set_data (VRef 1) (self s))
       (set_heap [mkLoader ["data"; "echo"; "echo.json"] "json" (VTree (TDict []));
                  mkLoader ["data"; "echo"; "echo.json"] "json" (VRef 1)]
          (world s)) []).
Proof.
  intros s.
  destruct (onload_adopt_discards env0 default_hooks s) as (_ & Hadopt & _).
  - left. exists [("k", TLeaf "v")]. reflexivity.
  - exact Hadopt.
Defined.

(** ** Unloading *)

Lemma unregister_handlers_eval s :
  unregister_handlers s
  = (inr tt,
     mkState (unregistered s).1 (unregistered s).2 (out s ++ [EvUnregister])%list).
Proof. reflexivity. Qed.

Lemma try_except_state {A} (c : M State A) h s :
  (forall e k s1, h e = Some k -> (k s1).2 = s1) ->
  (try_except c h s).2 = (c s).2.
Proof.
  intros H. unfold try_except. destruct (c s) as [[e | a] s1]; [| reflexivity].
  destruct (h e) as [k |] eqn:E; [| reflexivity]. simpl. exact (H e k s1 E).
Qed.

(** The state the persistence step of [__unload__] leaves is the state its
    [try] block leaves: the handler only raises. *)
Lemma unload_persist_state env s :
  (unload_persist env s).2
  = (if debug (self s) then
       (emit (EvWarning msg_debug_no_save) ;;
        v <- loader_data (data (self s)) ;;
        emit (EvTreeView (name_str (self s)) v)) s
     else save env (data (self s)) s).2.
Proof.
  unfold unload_persist. rewrite try_except_state.
  - unfold bind at 1, get at 1. destruct (debug (self s)); reflexivity.
  - intros e k s1 Hk. destruct e; try discriminate; injection Hk as <-; reflexivity.
Qed.

Lemma unload_persist_debug env s l ld :
  debug (self s) = true ->
  data (self s) = VRef l ->
  heap (world s) !! l = Some ld ->
  unload_persist env s
  = (inr tt,
     logged [EvWarning msg_debug_no_save;
             EvTreeView (name_str (self s)) (ldata ld)] s).
Proof.
  intros Hdbg Hdata Hl.
  unfold unload_persist, try_except, loader_data, as_loader, read_loader. run.
  rewrite Hdbg, Hdata. simpl. rewrite Hl. simpl.
  unfold logged. rewrite <- app_assoc. reflexivity.
Qed.

Lemma unload_persist_save env s l ld :
  debug (self s) = false ->
  data (self s) = VRef l ->
  heap (world s) !! l = Some ld ->
  exists res w',
    unload_persist env s = (res, mkState (self s) w' (out s ++ [EvSave l])%list)
    /\ forall t fs',
         known_format env (file_type ld) = true ->
         ldata ld = VTree t ->
         write_file (fs (world s)) (file_path ld) (Encoded (file_type ld) t)
         = inr fs' ->
         res = inr tt /\ w' = set_fs fs' (world s).
Proof.
  intros Hdbg Hdata Hl.
  destruct (save_called env s l ld Hl) as (r & w' & Hsave).
  destruct (unload_persist env s) as [res s'] eqn:E.
  pose proof (unload_persist_state env s) as Hstate.
  rewrite E, Hdbg, Hdata, Hsave in Hstate. simpl in Hstate. subst s'.
  exists res, w'. split; [reflexivity |].
  intros t fs' Hk Ht Hw.
  rewrite (save_ok env s l ld t fs' Hl Hk Ht Hw) in Hsave.
  injection Hsave as <- <-.
  unfold unload_persist, try_except in E. unfold bind at 1, get at 1 in E.
  rewrite Hdbg, Hdata, (save_ok env s l ld t fs' Hl Hk Ht Hw) in E.
  injection E as <-. split; reflexivity.
Qed.

(** A [data] attribute that is no loader object has neither [save] nor
    [data]: the persistence step ends in [AttributeError], which is none
    of the three errors it wraps, after the warning in debug mode. *)
Lemma unload_persist_no_loader env s :
  (forall l, data (self s) = VRef l -> heap (world s) !! l = None) ->
  unload_persist env s
  = (inl AttributeError,
     mkState (self s) (world s)
       (out s ++ (if debug (self s) then [EvWarning msg_debug_no_save] else []))%list).
Proof.
  intros Hno.
  unfold unload_persist, try_except, loader_data, save, as_loader, read_loader.
  run.
  destruct (debug (self s)); destruct (data (self s)) as [t | l] eqn:Hd; simpl;
    try rewrite (Hno l eq_refl); simpl; try reflexivity;
    rewrite app_nil_r; destruct s; reflexivity.
Qed.

(** The persistence step puts only its own calls on record. *)
Lemma unload_persist_events env s :
  exists t, out (unload_persist env s).2 = (out s ++ t)%list
            /\ forallb is_persist_event t = true.
Proof.
  rewrite unload_persist_state.
  destruct (debug (self s)).
  - unfold loader_data, as_loader, read_loader. run.
    destruct (data (self s)) as [d | l]; simpl.
    + exists [EvWarning msg_debug_no_save]. split; reflexivity.
    + destruct (heap (world s) !! l) as [ld |]; simpl.
      * exists [EvWarning msg_debug_no_save; EvTreeView (name_str (self s)) (ldata ld)].
        split; [rewrite <- app_assoc; reflexivity | reflexivity].
      * exists [EvWarning msg_debug_no_save]. split; reflexivity.
  - destruct (data (self s)) as [d | l].
    + exists []. split; [simpl; rewrite app_nil_r; reflexivity | reflexivity].
    + destruct (heap (world s) !! l) as [ld |] eqn:Hl.
      * destruct (save_called env s l ld Hl) as (r & w' & ->).
        exists [EvSave l]. split; reflexivity.
      * exists []. unfold save, as_loader, read_loader. run. rewrite Hl.
        split; [simpl; rewrite app_nil_r; reflexivity | reflexivity].
Qed.

(** [__unload__] up to the persistence step, by what the two close hooks
    do. *)
Lemma unload_eval env h arg kwd s :
  __unload__ env h arg kwd s
  = match _close_ h arg kwd (unregistered s).1 (unregistered s).2 with
    | (Some e, p1, w1) =>
        (inl e, mkState p1 w1 (out s ++ [EvUnregister; EvHook HClose []])%list)
    | (None, p1, w1) =>
        match on_close h arg kwd p1 w1 with
        | (Some e, p2, w2) =>
            (inl e,
             mkState p2 w2
               (out s ++ [EvUnregister; EvHook HClose [];
                          EvHook HOnClose (funcs p1)])%list)
        | (None, p2, w2) =>
            unload_persist env
              (mkState p2 w2
                 (out s ++ [EvUnregister; EvHook HClose [];
                            EvHook HOnClose (funcs p1)])%list)
        end
    end.
Proof.
  unfold __unload__. unfold bind at 1. rewrite unregister_handlers_eval.
  unfold bind at 1. rewrite call_hook_eval. simpl.
  destruct (_close_ h arg kwd _ _) as [[[e |] p1] w1].
  - rewrite <- app_assoc. reflexivity.
  - unfold bind at 1. rewrite call_hook_eval. simpl.
    destruct (on_close h arg kwd p1 w1) as [[[e |] p2] w2];
      rewrite <- !app_assoc; reflexivity.
Qed.

Lemma calls_of_app {A} (c : M State A) s t :
  out (c s).2 = (out s ++ t)%list -> calls_of c s = t.
Proof.
  intros H. unfold calls_of. rewrite H.
  rewrite skipn_app, skipn_all, Nat.sub_diag. reflexivity.
Qed.

(** C1: every call of [__unload__] makes its calls in one order. First
    [unregister_handlers], which returns and leaves the Func table empty;
    then the synchronous close hook, entered on the table as
    [unregister_handlers] left it; then, if that hook returned, the
    asynchronous close hook, entered on the table as the first hook left
    it; then, if that hook returned too, the persistence step, and nothing
    after it. The persistence step is exactly one call of [save] on the
    loader in [data] outside debug mode, and exactly the warning and the
    tree view of the loader's value in debug mode; where [data] holds no
    loader object there is nothing to save or to show and the step ends in
    [AttributeError]. A hook that raises ends the call there, before any
    save. So nothing is saved before both close hooks have returned, and
    the table is empty whenever a close hook starts, the second one
    included unless the first one has itself registered a Func. *)
Theorem unload_order env h arg kwd s :
  let u := (unregister_handlers s).2 in
  ((unregister_handlers s).1 = inr tt /\ funcs (self u) = [])
  /\ (exists rest,
        calls_of (__unload__ env h arg kwd) s
        = EvUnregister :: EvHook HClose (funcs (self u)) :: rest
        /\ match _close_ h arg kwd (self u) (world u) with
           | (Some e, _, _) =>
               rest = [] /\ (__unload__ env h arg kwd s).1 = inl e
           | (None, p1, w1) =>
               exists rest',
                 rest = EvHook HOnClose (funcs p1) :: rest'
                 /\ match on_close h arg kwd p1 w1 with
                    | (Some e, _, _) =>
                        rest' = [] /\ (__unload__ env h arg kwd s).1 = inl e
                    | (None, p2, w2) =>
                        (forall l ld,
                           data p2 = VRef l -> heap w2 !! l = Some ld ->
                           rest' = if debug p2
                                   then [EvWarning msg_debug_no_save;
                                         EvTreeView (name_str p2) (ldata ld)]
                                   else [EvSave l])
                        /\ ((forall l, data p2 = VRef l -> heap w2 !! l = None) ->
                            rest' = (if debug p2
                                     then [EvWarning msg_debug_no_save] else [])
                            /\ (__unload__ env h arg kwd s).1 = inl AttributeError)
                    end
           end)
  /\ ((forall p w, funcs (_close_ h arg kwd p w).1.2 = funcs p) ->
      forall id reg,
        In (EvHook id reg) (calls_of (__unload__ env h arg kwd) s) -> reg = []).
Proof.
  intros u.
  change (self u) with (unregistered s).1.
  change (world u) with (unregistered s).2.
  change (funcs (unregistered s).1) with (@nil Func).
  assert (Hshape : exists rest,
            calls_of (__unload__ env h arg kwd) s
            = EvUnregister :: EvHook HClose [] :: rest
            /\ match _close_ h arg kwd (unregistered s).1 (unregistered s).2 with
               | (Some e, _, _) =>
                   rest = [] /\ (__unload__ env h arg kwd s).1 = inl e
               | (None, p1, w1) =>
                   exists rest',
                     rest = EvHook HOnClose (funcs p1) :: rest'
                     /\ match on_close h arg kwd p1 w1 with
                        | (Some e, _, _) =>
                            rest' = [] /\ (__unload__ env h arg kwd s).1 = inl e
                        | (None, p2, w2) =>
                            (forall l ld,
                               data p2 = VRef l -> heap w2 !! l = Some ld ->
                               rest' = if debug p2
                                       then [EvWarning msg_debug_no_save;
                                             EvTreeView (name_str p2) (ldata ld)]
                                       else [EvSave l])
                            /\ ((forall l, data p2 = VRef l -> heap w2 !! l = None) ->
                                rest' = (if debug p2
                                         then [EvWarning msg_debug_no_save] else [])
                                /\ (__unload__ env h arg kwd s).1
                                   = inl AttributeError)
                        end
               end).
  { rewrite unload_eval.
    destruct (_close_ h arg kwd _ _) as [[[e |] p1] w1] eqn:Hclose.
    - exists []. split; [| split; reflexivity].
      apply calls_of_app. rewrite unload_eval, Hclose. reflexivity.
    - destruct (on_close h arg kwd p1 w1) as [[[e |] p2] w2] eqn:Honclose.
      + exists [EvHook HOnClose (funcs p1)]. split.
        * apply calls_of_app. rewrite unload_eval, Hclose, Honclose. reflexivity.
        * exists []. split; [reflexivity | split; reflexivity].
      + set (s2 := mkState p2 w2
                     (out s ++ [EvUnregister; EvHook HClose [];
                                EvHook HOnClose (funcs p1)])%list).
        destruct (unload_persist_events env s2) as (t & Hout & _).
        exists (EvHook HOnClose (funcs p1) :: t). split.
        * apply calls_of_app. rewrite unload_eval, Hclose, Honclose.
          fold s2. rewrite Hout. simpl. rewrite <- app_assoc. reflexivity.
        * exists t. split; [reflexivity |]. split.
          -- intros l ld Hdata Hl. destruct (debug p2) eqn:Hdbg.
             ++ rewrite (unload_persist_debug env s2 l ld Hdbg Hdata Hl) in Hout.
                simpl in Hout. apply app_inv_head in Hout. congruence.
             ++ destruct (unload_persist_save env s2 l ld Hdbg Hdata Hl)
                  as (res & w' & Hp & _).
                rewrite Hp in Hout. simpl in Hout.
                apply app_inv_head in Hout. congruence.
          -- intros Hno. rewrite (unload_persist_no_loader env s2 Hno) in Hout |- *.
             simpl in Hout. apply app_inv_head in Hout. split; [| reflexivity].
             symmetry. exact Hout. }
  split; [split; reflexivity |]. split; [exact Hshape |].
  intros Hkeeps id reg Hin.
  destruct Hshape as (rest & Hcalls & Hrest). rewrite Hcalls in Hin.
  destruct Hin as [Hin | [Hin | Hin]]; [discriminate | congruence |].
  pose proof (Hkeeps (unregistered s).1 (unregistered s).2) as Hfuncs.
  destruct (_close_ h arg kwd _ _) as [[[e |] p1] w1].
  - destruct Hrest as [-> _]. destruct Hin.
  - destruct Hrest as (rest' & -> & Hrest'). simpl in Hfuncs.
    destruct Hin as [Hin | Hin]; [congruence |].
    destruct (on_close h arg kwd p1 w1) as [[[e |] p2] w2].
    + destruct Hrest' as [-> _]. destruct Hin.
    + destruct Hrest' as [Hloader Hnone]. exfalso.
      assert (Hcases : (exists l ld, data p2 = VRef l /\ heap w2 !! l = Some ld)
                       \/ (forall l, data p2 = VRef l -> heap w2 !! l = None)).
      { destruct (data p2) as [t | l]; [right; discriminate |].
        destruct (heap w2 !! l) as [ld |] eqn:Hl.
        - left. exists l, ld. split; [reflexivity | exact Hl].
        - right. intros l' [= <-]. exact Hl. }
      destruct Hcases as [(l & ld & Hdata & Hl) | Hno].
      * rewrite (Hloader l ld Hdata Hl) in Hin.
        destruct (debug p2); simpl in Hin; intuition discriminate.
      * destruct (Hnone Hno) as [-> _].
        destruct (debug p2); simpl in Hin; intuition discriminate.
Qed.

Lemma unload_order_witness :
  let s := with_func ping (echo_state false) in
  funcs (self s) = [ping]
  /\ calls_of (__unload__ env0 default_hooks [] []) s
     = [EvUnregister; EvHook HClose []; EvHook HOnClose []; EvSave 0]
  /\ forallb (fun e => match e with
                       | EvHook _ (_ :: _) => false
                       | _ => true
                       end)
       (calls_of (__unload__ env0 default_hooks [] []) s) = true.
Proof.
  intros s.
  destruct (unload_order env0 default_hooks [] [] s)
    as (_ & (rest & Hcalls & Hrest) & Hempty).
  split; [reflexivity |]. split.
  - unfold default_hooks, pass in Hrest. cbn [_close_ on_close] in Hrest.
    destruct Hrest as (rest' & -> & Hsave & _).
    rewrite (Hsave 0 (mkLoader ["data"; "echo"; "echo.json"] "json"
                        (VTree (TDict []))) eq_refl eq_refl) in Hcalls.
    exact Hcalls.
  - apply forallb_forall. intros e Hin.
    destruct e as [| id reg | | | | |]; try reflexivity.
    rewrite (Hempty (fun p w => eq_refl) id reg Hin).
    reflexivity.
Defined.

(** C7, the claim as written, fails: outside debug mode, when a close hook
    raises, [__unload__] ends with that exception and never reaches the
    save; no [save] is on record and the disk is as it was. *)
Lemma unload_hook_raises_counterexample :
  let s := with_func ping (echo_state false) in
  let r := __unload__ env0 (mkHooks pass pass failing_close pass) [] [] s in
  debug (self s) = false
  /\ r.1 = inl (ValueError "close")
  /\ calls_of (__unload__ env0 (mkHooks pass pass failing_close pass) [] []) s
     = [EvUnregister; EvHook HClose []]
  /\ existsb is_save
       (calls_of (__unload__ env0 (mkHooks pass pass failing_close pass) [] []) s)
     = false
  /\ fs (world r.2) = fs (world s).
Proof.
  intros s r.
  assert (Hr : r = (inl (ValueError "close"),
                    mkState (unregistered s).1 (unregistered s).2
                      [EvUnregister; EvHook HClose []])).
  { unfold r. rewrite unload_eval. reflexivity. }
  assert (Hcalls : calls_of (__unload__ env0 (mkHooks pass pass failing_close pass)
                               [] []) s
                   = [EvUnregister; EvHook HClose []]).
  { apply calls_of_app. fold r. rewrite Hr. reflexivity. }
  rewrite Hcalls, Hr. repeat split.
Qed.

(** C7, amended: in every call of [__unload__] in which both close hooks
    return and leave a loader in [data], the save is called if and only if
    debug mode is off when they have returned. In debug mode the call
    returns after the warning and the tree view of the loader's value, and
    the world is as the hooks left it: nothing is written. Outside debug
    mode [save] is called once, and where the format is known, the value a
    tree and the path writable, the call returns and the file holds the
    encoding of the tree. *)
Theorem unload_saves_unless_debug env h arg kwd s p1 w1 p2 w2 l ld :
  _close_ h arg kwd (unregistered s).1 (unregistered s).2 = (None, p1, w1) ->
  on_close h arg kwd p1 w1 = (None, p2, w2) ->
  data p2 = VRef l ->
  heap w2 !! l = Some ld ->
  let r := __unload__ env h arg kwd s in
  let hooks_log := [EvUnregister; EvHook HClose []; EvHook HOnClose (funcs p1)] in
  (debug p2 = true ->
     r = (inr tt,
          mkState p2 w2
            (out s ++ hooks_log
             ++ [EvWarning msg_debug_no_save;
                 EvTreeView (name_str p2) (ldata ld)])%list))
  /\ (debug p2 = false ->
        exists res w',
          r = (res, mkState p2 w' (out s ++ hooks_log ++ [EvSave l])%list)
          /\ forall t fs',
               known_format env (file_type ld) = true ->
               ldata ld = VTree t ->
               write_file (fs w2) (file_path ld) (Encoded (file_type ld) t)
               = inr fs' ->
               res = inr tt /\ w' = set_fs fs' w2)
  /\ existsb is_save (calls_of (__unload__ env h arg kwd) s) = negb (debug p2).
Proof.
  intros Hclose Honclose Hdata Hl r hooks_log.
  assert (Hr : r = unload_persist env (mkState p2 w2 (out s ++ hooks_log)%list)).
  { unfold r. rewrite unload_eval, Hclose, Honclose. reflexivity. }
  set (s2 := mkState p2 w2 (out s ++ hooks_log)%list) in *.
  assert (Hon : debug p2 = true ->
                r = (inr tt,
                     mkState p2 w2
                       (out s ++ hooks_log
                        ++ [EvWarning msg_debug_no_save;
                            EvTreeView (name_str p2) (ldata ld)])%list)).
  { intros Hdbg. rewrite Hr.
    rewrite (unload_persist_debug env s2 l ld Hdbg Hdata Hl).
    unfold logged. simpl. rewrite <- app_assoc. reflexivity. }
  assert (Hoff : debug p2 = false ->
                 exists res w',
                   r = (res, mkState p2 w' (out s ++ hooks_log ++ [EvSave l])%list)
                   /\ forall t fs',
                        known_format env (file_type ld) = true ->
                        ldata ld = VTree t ->
                        write_file (fs w2) (file_path ld) (Encoded (file_type ld) t)
                        = inr fs' ->
                        res = inr tt /\ w' = set_fs fs' w2).
  { intros Hdbg.
    destruct (unload_persist_save env s2 l ld Hdbg Hdata Hl)
      as (res & w' & Hp & Hok).
    exists res, w'. split; [| exact Hok].
    rewrite Hr, Hp. simpl. rewrite <- app_assoc. reflexivity. }
  split; [exact Hon |]. split; [exact Hoff |].
  destruct (debug p2) eqn:Hdbg.
  - rewrite (calls_of_app _ s
               (hooks_log ++ [EvWarning msg_debug_no_save;
                              EvTreeView (name_str p2) (ldata ld)])%list);
      [reflexivity |].
    fold r. rewrite (Hon eq_refl). reflexivity.
  - destruct (Hoff eq_refl) as (res & w' & Hr' & _).
    rewrite (calls_of_app _ s (hooks_log ++ [EvSave l])%list); [reflexivity |].
    fold r. rewrite Hr'. reflexivity.
Qed.

Lemma unload_saves_unless_debug_witness :
  (let s := with_func ping (echo_state false) in
   __unload__ env0 default_hooks [] [] s
   = (inr tt,
      mkState (echo_plugin false)
        (set_fs (<[["data"; "echo"; "echo.json"]
                   := File (Encoded "json" (TDict []))]> (fs echo_world))
           echo_world)
        [EvUnregister; EvHook HClose []; EvHook HOnClose []; EvSave 0]))
  /\ (let s := with_func ping (echo_state true) in
      __unload__ env0 default_hooks [] [] s
      = (inr tt,
         mkState (echo_plugin true) echo_world
           [EvUnregister; EvHook HClose []; EvHook HOnClose [];
            EvWarning msg_debug_no_save; EvTreeView "Echo" (VTree (TDict []))])).
Proof.
  split.
  - intros s.
    destruct (unload_saves_unless_debug env0 default_hooks [] [] s
                (echo_plugin false) echo_world (echo_plugin false) echo_world 0
                (mkLoader ["data"; "echo"; "echo.json"] "json" (VTree (TDict []))))
      as (_ & Hoff & _).
    + reflexivity.
    + reflexivity.
    + reflexivity.
    + reflexivity.
    + destruct (Hoff eq_refl) as (res & w' & Hr & Hok).
      destruct (Hok (TDict [])
                  (<[["data"; "echo"; "echo.json"]
                     := File (Encoded "json" (TDict []))]> (fs echo_world)))
        as [-> ->].
      * vm_compute. reflexivity.
      * reflexivity.
      * apply write_file_ok; vm_compute; [reflexivity | discriminate].
      * exact Hr.
  - intros s.
    destruct (unload_saves_unless_debug env0 default_hooks [] [] s
                (echo_plugin true) echo_world (echo_plugin true) echo_world 0
                (mkLoader ["data"; "echo"; "echo.json"] "json" (VTree (TDict []))))
      as (Hon & _ & _).
    + reflexivity.
    + reflexivity.
    + reflexivity.
    + reflexivity.
    + exact (Hon eq_refl).
Defined.

(** * Further properties *)

(** ** Construction: paths and the disk *)

Lemma parent_prefix (p : path) : parent p `prefix_of` p.
Proof.
  unfold parent. destruct (decide (p = [])) as [-> | Hp].
  - exists []. reflexivity.
  - exists [List.last p ""]. apply app_removelast_last. exact Hp.
Qed.



Lemma os_mkdir_inr fs (p : path) fs' :
  os_mkdir fs p = inr fs' ->
  stat fs p = None /\ stat fs (parent p) = Some Dir /\ fs' = <[p := Dir]> fs.
Proof.
  unfold os_mkdir. destruct (stat fs p); [discriminate |].
  destruct (stat fs (parent p)) as [[| c] |]; try discriminate.
  intros [= <-]. auto.
Qed.

Lemma os_mkdir_not_found fs (p : path) :
  os_mkdir fs p = inl FileNotFoundError ->
  stat fs p = None /\ stat fs (parent p) = None.
Proof.
  unfold os_mkdir. destruct (stat fs p); [discriminate |].
  destruct (stat fs (parent p)) as [[| c] |]; try discriminate. auto.
Qed.

(** What [os.mkdir] changes: the one path, from nothing to a directory. *)
Lemma os_mkdir_effect fs (p : path) fs' :
  os_mkdir fs p = inr fs' ->
  forall q, stat fs' q = stat fs q
            \/ (stat fs q = None /\ stat fs' q = Some Dir /\ q = p).
Proof.
  intros H q. destruct (os_mkdir_inr _ _ _ H) as (Hp & _ & ->).
  destruct (decide (q = p)) as [-> | Hq].
  - right. split; [exact Hp |]. split; [| reflexivity].
    apply stat_insert_eq. intros ->. discriminate.
  - left. apply stat_insert_ne. exact Hq.
Qed.

(** What [mkdir(parents=True)] changes when it succeeds: it turns paths
    that did not exist, all of them the target or ancestors of it, into
    directories, and touches nothing else. *)
Lemma mkdir_parents_effect fuel : forall exist_ok fs (p : path) fs',
  mkdir_parents fuel exist_ok fs p = inr fs' ->
  forall q, stat fs' q = stat fs q
            \/ (stat fs q = None /\ stat fs' q = Some Dir /\ q `prefix_of` p).
Proof.
  induction fuel as [| fuel IH]; intros exist_ok fs p fs'; simpl.
  - destruct (os_mkdir fs p) as [e | fs0] eqn:E.
    + destruct e; try (destruct (exist_ok && is_dir fs p); [| discriminate];
                       intros [= <-] q; left; reflexivity).
    + intros [= <-] q. destruct (os_mkdir_effect _ _ _ E q) as [H | (H1 & H2 & ->)];
        [left; exact H | right; repeat split; auto].
  - destruct (os_mkdir fs p) as [e | fs0] eqn:E.
    + destruct e; try (destruct (exist_ok && is_dir fs p); [| discriminate];
                       intros [= <-] q; left; reflexivity).
      destruct (mkdir_parents fuel true fs (parent p)) as [e1 | fs1] eqn:E1;
        [discriminate |].
      assert (Hstep : forall q, stat fs1 q = stat fs q
                \/ (stat fs q = None /\ stat fs1 q = Some Dir /\ q `prefix_of` p)).
      { intros q. destruct (IH _ _ _ _ E1 q) as [H | (H1 & H2 & H3)];
          [left; exact H |].
        right. repeat split; auto. etransitivity; [exact H3 | apply parent_prefix]. }
      destruct (os_mkdir fs1 p) as [e2 | fs2] eqn:E2.
      * destruct (exist_ok && is_dir fs1 p); [| discriminate].
        intros [= <-]. exact Hstep.
      * intros [= <-] q.
        destruct (os_mkdir_effect _ _ _ E2 q) as [H | (H1 & H2 & ->)].
        -- rewrite H. apply Hstep.
        -- right. split; [| split; [exact H2 | reflexivity]].
           destruct (Hstep p) as [H | (H & _)]; [congruence | exact H].
    + intros [= <-] q. destruct (os_mkdir_effect _ _ _ E q) as [H | (H1 & H2 & ->)];
        [left; exact H | right; repeat split; auto].
Qed.


Lemma truthy_not_missing o : ~ missing o -> str_truthy o = true.
Proof.
  intros H. destruct (str_truthy o) eqn:E; [reflexivity |].
  exfalso. apply H. apply missing_not_truthy. exact E.
Qed.

(** [__init__] once the identity checks have passed. *)
Lemma init_eval env cls eb sch dbg kwd w :
  ~ missing (cls_name cls) -> ~ missing (cls_version cls) ->
  let c := (after_kwd cls kwd).1 in
  let deps := dependencies_after cls kwd in
  __init__ env cls eb sch dbg kwd w
  = match check_first_load (work_path_of env c) (data_path_of env c) w with
    | (inl e, w1) => (inl e, w1)
    | (inr first, w1) =>
        if is_dir (fs w1) (work_path_of env c) then
          (inr (mkPlugin (cls_name c) (cls_version c) deps (cls_author c)
                  (cls_info c) (cls_save_type c) (after_kwd cls kwd).2
                  (cls_module_file c) (parent (cls_module_file c)) dbg []
                  eb sch (work_path_of env c) (data_path_of env c) first
                  (VRef (length (heap w1))) [] []),
           (new_loader (data_path_of env c) (cls_save_type c) w1).2)
        else
          (inl (PluginLoadError
                  (match cls_name c with Some s => s | None => "None" end)
                  (work_path_of env c)), w1)
    end.
Proof.
  intros Hn Hv c deps. unfold __init__.
  rewrite (truthy_not_missing _ Hn), (truthy_not_missing _ Hv). simpl.
  unfold deps, dependencies_after.
  change (fold_left (fun a kv => setattr kv.1 kv.2 a) kwd
            (with_dependencies
               match cls_dependencies cls with
               | Some d => if tree_truthy d then d else TDict []
               | None => TDict []
               end cls, ∅))
    with (after_kwd (with_dependencies (default_dependencies cls) cls) kwd).
  destruct (after_kwd_with_dependencies (default_dependencies cls) cls kwd)
    as [d' ->].
  unfold c, work_path_of, data_path_of.
  destruct (after_kwd cls kwd) as [c0 extra]. simpl.
  unfold bind at 1.
  destruct (check_first_load _ _ w) as [[e | first] w1]; [reflexivity |].
  run. destruct (is_dir (fs w1) _); reflexivity.
Qed.

Lemma check_first_load_effect work_path data_path w b w1 :
  check_first_load work_path data_path w = (inr b, w1) ->
  heap w1 = heap w /\ bus w1 = bus w
  /\ forall q, stat (fs w1) q = stat (fs w) q
               \/ (stat (fs w) q = None /\ stat (fs w1) q = Some Dir
                   /\ q `prefix_of` work_path).
Proof.
  unfold check_first_load. run.
  destruct (path_exists (fs w) work_path); simpl.
  - destruct (path_exists (fs w) data_path); simpl; intros [= <- <-];
      repeat split; auto.
  - destruct (mkdir (fs w) work_path) as [e | fs'] eqn:E; simpl; [discriminate |].
    intros [= <- <-]. repeat split; auto.
    intros q. simpl. exact (mkdir_parents_effect _ _ _ _ _ E q).
Qed.

Lemma path_join_file (p : path) (stem ext : string) :
  path_join p (stem ++ "." ++ ext) = (p ++ [(stem ++ "." ++ ext)%string])%list.
Proof. unfold path_join. rewrite file_name_nonempty. reflexivity. Qed.

Lemma data_path_not_prefix env c :
  ~ data_path_of env c `prefix_of` work_path_of env c.
Proof.
  unfold data_path_of. rewrite path_join_file. intros [k Hk].
  apply (f_equal (@length string)) in Hk. rewrite !length_app in Hk.
  simpl in Hk. lia.
Qed.

Lemma data_path_parent env c :
  parent (data_path_of env c) = work_path_of env c.
Proof.
  unfold data_path_of. rewrite path_join_file. unfold parent.
  apply removelast_last.
Qed.

Lemma init_identity_present env cls eb sch dbg kwd w p w' :
  __init__ env cls eb sch dbg kwd w = (inr p, w') ->
  ~ missing (cls_name cls) /\ ~ missing (cls_version cls).
Proof.
  unfold __init__. rewrite !missing_not_truthy.
  destruct (str_truthy (cls_name cls)); simpl; [| discriminate].
  destruct (str_truthy (cls_version cls)); simpl; [| discriminate].
  intros _. split; discriminate.
Qed.

(** A successful [__init__], taken apart. *)
Lemma init_inv env cls eb sch dbg kwd w p w' :
  __init__ env cls eb sch dbg kwd w = (inr p, w') ->
  let c := (after_kwd cls kwd).1 in
  exists first w1,
    check_first_load (work_path_of env c) (data_path_of env c) w = (inr first, w1)
    /\ is_dir (fs w1) (work_path_of env c) = true
    /\ w' = (new_loader (data_path_of env c) (cls_save_type c) w1).2
    /\ p = mkPlugin (cls_name c) (cls_version c)
             (dependencies_after cls kwd)
             (cls_author c) (cls_info c) (cls_save_type c) (after_kwd cls kwd).2
             (cls_module_file c) (parent (cls_module_file c)) dbg []
             eb sch (work_path_of env c) (data_path_of env c) first
             (VRef (length (heap w1))) [] [].
Proof.
  intros Hinit c.
  destruct (init_identity_present _ _ _ _ _ _ _ _ _ Hinit) as [Hn Hv].
  rewrite (init_eval env cls eb sch dbg kwd w Hn Hv) in Hinit. fold c in Hinit.
  destruct (check_first_load _ _ w) as [[e | first] w1]; [discriminate |].
  destruct (is_dir (fs w1) _) eqn:Hd; [| discriminate].
  injection Hinit as <- <-. exists first, w1. auto.
Qed.

(** X1: the layout a successful construction leaves. The plugin's source
    directory is the directory of its module file; the working directory is
    the persistent root joined with the name of that directory, and it
    exists as a directory; the data file lies directly in it and is named
    after the source directory and the save format; [data] is a new loader
    object for that path and format, holding the empty tree. *)
Theorem init_layout env cls eb sch dbg kwd w p w' :
  __init__ env cls eb sch dbg kwd w = (inr p, w') ->
  this_file_path p = cls_module_file cls
  /\ self_path p = parent (this_file_path p)
  /\ _work_path p = path_join (PERSISTENT_DIR env) (path_name (self_path p))
  /\ _data_path p
     = (_work_path p ++ [(path_name (self_path p) ++ "." ++ save_type p)%string])%list
  /\ parent (_data_path p) = _work_path p
  /\ is_dir (fs w') (_work_path p) = true
  /\ _debug p = dbg
  /\ exists l,
       data p = VRef l
       /\ heap w !! l = None
       /\ heap w' !! l
          = Some (mkLoader (_data_path p) (save_type p) (VTree (TDict []))).
Proof.
  intros Hinit.
  destruct (init_inv _ _ _ _ _ _ _ _ _ Hinit) as (first & w1 & Hfirst & Hdir & -> & ->).
  destruct (check_first_load_effect _ _ _ _ _ Hfirst) as (Hheap & _ & _).
  simpl. split; [apply after_kwd_module_file |]. split; [reflexivity |].
  split; [reflexivity |].
  split; [unfold data_path_of; apply path_join_file |].
  split; [apply data_path_parent |]. split; [exact Hdir |].
  split; [reflexivity |].
  exists (length (heap w1)). split; [reflexivity |]. split.
  - rewrite Hheap. apply lookup_ge_None_2. lia.
  - apply list_lookup_middle. reflexivity.
Qed.

Lemma init_layout_witness :
  _work_path (echo_plugin false) = ["data"; "echo"]
  /\ _data_path (echo_plugin false) = ["data"; "echo"; "echo.json"]
  /\ is_dir (fs echo_world) ["data"; "echo"] = true.
Proof.
  assert (Hinit : __init__ env0 Echo 0 0 false [] world0
                  = (inr (echo_plugin false), echo_world))
    by (vm_compute; reflexivity).
  destruct (init_layout _ _ _ _ _ _ _ _ _ Hinit)
    as (_ & _ & Hwork & Hdata & _ & Hdir & _).
  split; [exact Hwork |]. split; [exact Hdata | exact Hdir].
Defined.

(** X2: when the path of the working directory is taken by a regular
    file, construction raises [PluginLoadError] with the plugin's name and
    that path, and leaves the world as it found it. *)
Theorem init_workspace_not_a_directory env cls eb sch dbg kwd w content :
  ~ missing (cls_name cls) -> ~ missing (cls_version cls) ->
  let c := (after_kwd cls kwd).1 in
  stat (fs w) (work_path_of env c) = Some (File content) ->
  __init__ env cls eb sch dbg kwd w
  = (inl (PluginLoadError
            (match cls_name c with Some s => s | None => "None" end)
            (work_path_of env c)), w).
Proof.
  intros Hn Hv c Hfile. rewrite (init_eval env cls eb sch dbg kwd w Hn Hv).
  fold c. unfold check_first_load. run. unfold path_exists, is_dir.
  rewrite Hfile. simpl.
  destruct (stat (fs w) (data_path_of env c)); simpl; rewrite Hfile; reflexivity.
Qed.

Lemma init_workspace_not_a_directory_witness :
  __init__ env0 Echo 0 0 false [] world_blocked
  = (inl (PluginLoadError "Echo" ["data"; "echo"]), world_blocked).
Proof.
  apply (init_workspace_not_a_directory env0 Echo 0 0 false [] world_blocked
           (Raw "x")).
  - intros [H | H]; discriminate.
  - intros [H | H]; discriminate.
  - vm_compute. reflexivity.
Defined.

Lemma init_disk env cls eb sch dbg kwd w p w' :
  __init__ env cls eb sch dbg kwd w = (inr p, w') ->
  forall q, stat (fs w') q = stat (fs w) q
            \/ (stat (fs w) q = None /\ stat (fs w') q = Some Dir
                /\ q `prefix_of` _work_path p).
Proof.
  intros Hinit.
  destruct (init_inv _ _ _ _ _ _ _ _ _ Hinit) as (first & w1 & Hfirst & Hdir & -> & ->).
  destruct (check_first_load_effect _ _ _ _ _ Hfirst) as (_ & _ & Hfs).
  exact Hfs.
Qed.

Lemma init_data_file_untouched env cls eb sch dbg kwd w p w' :
  __init__ env cls eb sch dbg kwd w = (inr p, w') ->
  stat (fs w') (_data_path p) = stat (fs w) (_data_path p).
Proof.
  intros Hinit. destruct (init_disk _ _ _ _ _ _ _ _ _ Hinit (_data_path p))
    as [H | (_ & _ & H)]; [exact H |].
  exfalso.
  destruct (init_inv _ _ _ _ _ _ _ _ _ Hinit) as (first & w1 & _ & _ & _ & ->).
  simpl in H. exact (data_path_not_prefix _ _ H).
Qed.

(** X3: a successful construction never creates, changes or removes a
    file. Whatever was on the disk is still there unchanged; anything new
    is a directory, and is the working directory or an ancestor of it; the
    data file in particular is neither created nor touched. The bus is not
    touched either. *)
Theorem init_creates_only_directories env cls eb sch dbg kwd w p w' :
  __init__ env cls eb sch dbg kwd w = (inr p, w') ->
  (forall q n, stat (fs w) q = Some n -> stat (fs w') q = Some n)
  /\ (forall q n, stat (fs w) q = None -> stat (fs w') q = Some n ->
                  n = Dir /\ q `prefix_of` _work_path p)
  /\ stat (fs w') (_data_path p) = stat (fs w) (_data_path p)
  /\ bus w' = bus w.
Proof.
  intros Hinit. pose proof (init_disk _ _ _ _ _ _ _ _ _ Hinit) as Hdisk.
  split; [| split; [| split]].
  - intros q n Hq. destruct (Hdisk q) as [H | (H & _)]; congruence.
  - intros q n Hq Hq'. destruct (Hdisk q) as [H | (_ & H & Hpre)].
    + congruence.
    + split; [congruence | exact Hpre].
  - exact (init_data_file_untouched _ _ _ _ _ _ _ _ _ Hinit).
  - destruct (init_inv _ _ _ _ _ _ _ _ _ Hinit) as (first & w1 & Hfirst & _ & -> & _).
    destruct (check_first_load_effect _ _ _ _ _ Hfirst) as (_ & Hbus & _).
    exact Hbus.
Qed.

Lemma init_creates_only_directories_witness :
  stat (fs echo_world) (_data_path (echo_plugin false)) = None
  /\ bus echo_world = bus world0.
Proof.
  assert (Hinit : __init__ env0 Echo 0 0 false [] world0
                  = (inr (echo_plugin false), echo_world))
    by (vm_compute; reflexivity).
  destruct (init_creates_only_directories _ _ _ _ _ _ _ _ _ Hinit)
    as (_ & _ & Hdata & Hbus).
  split; [rewrite Hdata; vm_compute; reflexivity | exact Hbus].
Defined.



(** The same construction once more, in a world with the disk the first
    one left. *)
Lemma init_repeat env cls eb sch dbg kwd w p w' w2 :
  __init__ env cls eb sch dbg kwd w = (inr p, w') ->
  fs w2 = fs w' ->
  path_exists (fs w) (_data_path p) = false ->
  exists p2 w3,
    __init__ env cls eb sch dbg kwd w2 = (inr p2, w3)
    /\ first_load p2 = true
    /\ fs w3 = fs w2
    /\ identity_and_paths p2 = identity_and_paths p.
Proof.
  intros Hinit Hfs Hnofile.
  destruct (init_identity_present _ _ _ _ _ _ _ _ _ Hinit) as [Hn Hv].
  pose proof (init_data_file_untouched _ _ _ _ _ _ _ _ _ Hinit) as Hdata.
  destruct (init_inv _ _ _ _ _ _ _ _ _ Hinit) as (first & w1 & Hfirst & Hdir & -> & ->).
  rewrite (init_eval env cls eb sch dbg kwd _ Hn Hv).
  set (c := (after_kwd cls kwd).1) in *. simpl in *.
  unfold check_first_load. run. rewrite Hfs.
  assert (Hex : path_exists (fs w1) (work_path_of env c) = true).
  { unfold path_exists. unfold is_dir in Hdir.
    destruct (stat (fs w1) (work_path_of env c)); [reflexivity | discriminate]. }
  assert (Hno : path_exists (fs w1) (data_path_of env c) = false).
  { unfold path_exists in *. rewrite Hdata. exact Hnofile. }
  rewrite Hex, Hno. simpl. rewrite Hfs, Hdir.
  eexists. eexists. split; [reflexivity |]. repeat split. simpl. exact Hfs.
Qed.

(** X5: [first_load] is not a once-only flag. When a construction found no
    data file, the same construction repeated in the world it left succeeds
    again, creates nothing more on the disk, and sets [first_load] again:
    the flag stays true from one start to the next until a data file has
    been written. *)
Theorem init_again_first_load env cls eb sch dbg kwd w p w' :
  __init__ env cls eb sch dbg kwd w = (inr p, w') ->
  path_exists (fs w) (_data_path p) = false ->
  exists p2 w2,
    __init__ env cls eb sch dbg kwd w' = (inr p2, w2)
    /\ first_load p2 = true
    /\ fs w2 = fs w'
    /\ identity_and_paths p2 = identity_and_paths p.
Proof.
  intros Hinit Hnofile.
  exact (init_repeat _ _ _ _ _ _ _ _ _ w' Hinit eq_refl Hnofile).
Qed.

Lemma init_again_first_load_witness :
  exists p2 w2,
    __init__ env0 Echo 0 0 false [] echo_world = (inr p2, w2)
    /\ first_load p2 = true.
Proof.
  assert (Hinit : __init__ env0 Echo 0 0 false [] world0
                  = (inr (echo_plugin false), echo_world))
    by (vm_compute; reflexivity).
  destruct (init_again_first_load _ _ _ _ _ _ _ _ _ Hinit)
    as (p2 & w2 & Hagain & Hfirst & _).
  - vm_compute. reflexivity.
  - exists p2, w2. split; assumption.
Defined.

(** ** Construction: keyword arguments *)

Lemma after_kwd_snoc cls kwd k v :
  after_kwd cls (kwd ++ [(k, v)]) = setattr k v (after_kwd cls kwd).
Proof. unfold after_kwd. rewrite fold_left_app. reflexivity. Qed.

Lemma setattr_added k v a :
  added_attr k = true -> (setattr k v a).2 !! k = Some v.
Proof.
  unfold added_attr, declared_string_attr. intros H.
  apply negb_true_iff in H.
  repeat (apply orb_false_iff in H; destruct H as [H ?]).
  destruct a as [c extra]. unfold setattr.
  repeat match goal with
         | E : String.eqb k _ = false |- _ => rewrite E; clear E
         end.
  match goal with
  | E1 : assigned_after_kwd k = false, E2 : not_a_data_keyword k = false |- _ =>
      rewrite E1, E2
  end.
  simpl. apply lookup_insert_eq.
Qed.

Lemma setattr_assigned k v a : assigned_after_kwd k = true -> setattr k v a = a.
Proof.
  unfold assigned_after_kwd. intros H. destruct a as [c extra].
  cbn [existsb] in H.
  repeat (apply orb_true_iff in H; destruct H as [H | H];
          [apply String.eqb_eq in H; subst k; reflexivity |]).
  discriminate.
Qed.

(** X6: keyword arguments are set as attributes after the name and the
    version have been checked, and the last value given for a key is the
    one that stays. A key that names no attribute of the class body and
    none that [__init__] assigns itself reads back from the added
    attributes. A string given for [name] becomes the name unchecked, the
    empty string included; a string given for [save_type] becomes the save
    format and the format of the loader; a value given for [dependencies]
    becomes the dependencies, an empty one included, since the default is
    put in before the loop. A keyword that names an attribute [__init__]
    assigns after the loop ([data], [first_load], the paths, ...) changes
    nothing: the construction goes as without it. *)
Theorem kwd_sets_attributes env cls eb sch dbg kwd k v w :
  (forall p w',
     __init__ env cls eb sch dbg (kwd ++ [(k, v)]) w = (inr p, w') ->
     (added_attr k = true -> attrs p !! k = Some v)
     /\ (forall s, v = VTree (TLeaf s) -> k = "name" -> name p = Some s)
     /\ (forall s, v = VTree (TLeaf s) -> k = "save_type" ->
           save_type p = s
           /\ exists l, data p = VRef l /\ (file_type <$> heap w' !! l) = Some s)
     /\ (forall d, v = VTree d -> k = "dependencies" -> dependencies p = d))
  /\ (assigned_after_kwd k = true ->
      __init__ env cls eb sch dbg (kwd ++ [(k, v)]) w
      = __init__ env cls eb sch dbg kwd w).
Proof.
  split.
  - intros p w' Hinit.
    destruct (init_inv _ _ _ _ _ _ _ _ _ Hinit) as (first & w1 & _ & _ & -> & ->).
    unfold dependencies_after. rewrite !after_kwd_snoc. simpl.
    split; [| split; [| split]].
    + intros Hk. apply setattr_added. exact Hk.
    + intros s -> ->. destruct (after_kwd cls kwd) as [c extra]. reflexivity.
    + intros s -> ->. destruct (after_kwd cls kwd) as [c extra]. simpl.
      split; [reflexivity |].
      exists (length (heap w1)). split; [reflexivity |].
      rewrite list_lookup_middle; reflexivity.
    + intros d -> ->.
      destruct (after_kwd (with_dependencies _ cls) kwd) as [c extra].
      reflexivity.
  - intros Hk. unfold __init__.
    rewrite fold_left_app. cbn [fold_left fst snd].
    rewrite (setattr_assigned k v _ Hk). reflexivity.
Qed.

Lemma kwd_sets_attributes_witness :
  (exists p w',
     __init__ env0 Echo 0 0 false ([] ++ [("save_type", VTree (TLeaf "toml"))]) world0
     = (inr p, w')
     /\ save_type p = "toml")
  /\ (exists p w',
        __init__ env0 Echo 0 0 false ([] ++ [("name", VTree (TLeaf ""))]) world0
        = (inr p, w')
        /\ name p = Some "")
  /\ (exists p w',
        __init__ env0 Echo 0 0 false ([] ++ [("api", VRef 7)]) world0 = (inr p, w')
        /\ attrs p !! "api" = Some (VRef 7))
  /\ (exists p w',
        __init__ env0 Echo 0 0 false ([] ++ [("dependencies", VTree (TList []))])
          world0 = (inr p, w')
        /\ dependencies p = TList [])
  /\ __init__ env0 Echo 0 0 false ([] ++ [("data", VTree kv)]) world0
     = __init__ env0 Echo 0 0 false [] world0.
Proof.
  split; [| split; [| split; [| split]]].
  - destruct (__init__ env0 Echo 0 0 false
                ([] ++ [("save_type", VTree (TLeaf "toml"))]) world0)
      as [[e | p] w'] eqn:E; [vm_compute in E; discriminate |].
    destruct (kwd_sets_attributes env0 Echo 0 0 false [] "save_type"
                (VTree (TLeaf "toml")) world0) as (Hset & _).
    destruct (Hset p w' E) as (_ & _ & Hsave & _).
    destruct (Hsave "toml" eq_refl eq_refl) as (Hs & _).
    exists p, w'. split; [reflexivity | exact Hs].
  - destruct (__init__ env0 Echo 0 0 false
                ([] ++ [("name", VTree (TLeaf ""))]) world0)
      as [[e | p] w'] eqn:E; [vm_compute in E; discriminate |].
    destruct (kwd_sets_attributes env0 Echo 0 0 false [] "name"
                (VTree (TLeaf "")) world0) as (Hset & _).
    destruct (Hset p w' E) as (_ & Hname & _).
    exists p, w'. split; [reflexivity | exact (Hname "" eq_refl eq_refl)].
  - destruct (__init__ env0 Echo 0 0 false ([] ++ [("api", VRef 7)]) world0)
      as [[e | p] w'] eqn:E; [vm_compute in E; discriminate |].
    destruct (kwd_sets_attributes env0 Echo 0 0 false [] "api" (VRef 7) world0)
      as (Hset & _).
    destruct (Hset p w' E) as (Hattr & _).
    exists p, w'. split; [reflexivity | exact (Hattr eq_refl)].
  - destruct (__init__ env0 Echo 0 0 false
                ([] ++ [("dependencies", VTree (TList []))]) world0)
      as [[e | p] w'] eqn:E; [vm_compute in E; discriminate |].
    destruct (kwd_sets_attributes env0 Echo 0 0 false [] "dependencies"
                (VTree (TList [])) world0) as (Hset & _).
    destruct (Hset p w' E) as (_ & _ & _ & Hdeps).
    exists p, w'. split; [reflexivity | exact (Hdeps (TList []) eq_refl eq_refl)].
  - destruct (kwd_sets_attributes env0 Echo 0 0 false [] "data" (VTree kv) world0)
      as (_ & Hsame).
    exact (Hsame eq_refl).
Defined.

(** ** The Func table as an invariant *)

Lemma forallb_names_false fname l :
  forallb (fun var => negb (String.eqb fname (f_name var))) l = false ->
  exists f, In f l /\ f_name f = fname.
Proof.
  induction l as [| f l IH]; simpl; [discriminate |].
  destruct (String.eqb fname (f_name f)) eqn:E; simpl.
  - intros _. exists f. split; [left; reflexivity |].
    symmetry. apply String.eqb_eq. exact E.
  - intros H. destruct (IH H) as (g & Hin & Hg). exists g. auto.
Qed.

Lemma forallb_names_true fname l :
  forallb (fun var => negb (String.eqb fname (f_name var))) l = true ->
  ~ In fname (map f_name l).
Proof.
  rewrite forallb_forall. intros H Hin. apply in_map_iff in Hin.
  destruct Hin as (f & Hf & Hin). specialize (H f Hin).
  rewrite <- Hf, String.eqb_refl in H. discriminate.
Qed.

Lemma registered_app n (p : Plugin) tail :
  registered n p -> registered n (set_funcs (funcs p ++ tail)%list p).
Proof.
  intros (f & Hin & Hf). exists f. split; [| exact Hf].
  simpl. apply in_or_app. left. exact Hin.
Qed.

(** X7: what [_register_func] leaves behind, whether it returns or raises.
    A Func of the given name is in the table; every name that was
    registered still is; the table is the old one with at most one entry
    added at its end; and nothing but the table has changed. The call
    returns exactly when the name was fresh. *)
Theorem register_func_postcondition s fname h flt raw perm pr :
  let r := _register_func fname h flt raw perm pr s in
  registered fname (self r.2)
  /\ (forall n, registered n (self s) -> registered n (self r.2))
  /\ (exists tail, r.2 = mkState (set_funcs (funcs (self s) ++ tail)%list (self s))
                           (world s) (out s)
                   /\ length tail <= 1)
  /\ (r.1 = inr tt <-> fresh_name fname (self s)).
Proof.
  intros r. unfold r, _register_func. run.
  destruct (forallb _ (funcs (self s))) eqn:E; simpl.
  - split; [| split; [| split]].
    + eexists. split; [apply in_or_app; right; left; reflexivity | reflexivity].
    + intros n Hn. apply registered_app. exact Hn.
    + eexists. split; [reflexivity | simpl; lia].
    + split; [| reflexivity]. intros _ f Hin Hf.
      apply (forallb_names_true _ _ E). rewrite <- Hf. apply in_map. exact Hin.
  - pose proof (forallb_names_false _ _ E) as Hreg.
    split; [exact Hreg |]. split; [auto |]. split.
    + exists []. split; [| simpl; lia]. rewrite app_nil_r.
      destruct s as [[] ? ?]. reflexivity.
    + split; [discriminate |]. intros Hfresh.
      destruct Hreg as (f & Hin & Hf). exfalso. exact (Hfresh f Hin Hf).
Qed.

Lemma preserves_bind {A B} I (c : M State A) (k : A -> M State B) :
  preserves I c -> (forall a, preserves I (k a)) -> preserves I (bind c k).
Proof.
  intros Hc Hk s Hs. unfold bind. specialize (Hc s Hs).
  destruct (c s) as [[e | a] s1]; simpl in *; [exact Hc |].
  exact (Hk a s1 Hc).
Qed.

Lemma keeps_preserves {A B} (f : Plugin -> B) (J : B -> Prop) (c : M State A) :
  keeps f c -> preserves (fun p => J (f p)) c.
Proof. intros Hk s Hs. rewrite (Hk s). exact Hs. Qed.

Lemma preserves_call_hook I id (hk : hook) arg kwd :
  (forall p w, I p -> I (hk arg kwd p w).1.2) ->
  preserves I (call_hook id hk arg kwd).
Proof.
  intros H s Hs. rewrite call_hook_eval. specialize (H (self s) (world s) Hs).
  destruct (hk arg kwd (self s) (world s)) as [[[e |] p] w]; exact H.
Qed.

Lemma register_func_unique n h flt raw perm pr :
  preserves names_unique (_register_func n h flt raw perm pr).
Proof.
  intros s Hs. unfold _register_func. run.
  destruct (forallb _ (funcs (self s))) eqn:E; simpl; [| exact Hs].
  unfold names_unique. simpl. rewrite map_app. simpl.
  apply NoDup_app. split; [exact Hs |]. split.
  - intros x Hx Hx'. apply list_elem_of_In in Hx.
    apply list_elem_of_In in Hx'. destruct Hx' as [<- | []].
    exact (forallb_names_true _ _ E Hx).
  - apply NoDup_singleton.
Qed.

(** X8: the names in the Func table stay pairwise distinct. Whatever
    method of the class is called, with hooks that keep the table that way
    themselves, a table without two entries of one name is still one
    afterwards, whether the call returned or raised. *)
Theorem names_stay_unique env h call s :
  (forall arg kwd p w, names_unique p -> names_unique (_init_ h arg kwd p w).1.2) ->
  (forall arg kwd p w, names_unique p -> names_unique (on_load h arg kwd p w).1.2) ->
  (forall arg kwd p w, names_unique p -> names_unique (_close_ h arg kwd p w).1.2) ->
  (forall arg kwd p w, names_unique p -> names_unique (on_close h arg kwd p w).1.2) ->
  names_unique (self s) ->
  names_unique (self (invoke env h call s).2).
Proof.
  intros Hinit Hload Hclose Honclose. revert s.
  change (preserves names_unique (invoke env h call)).
  assert (Hfuncs : forall A (c : M State A), keeps funcs c -> preserves names_unique c).
  { intros A c Hc. exact (keeps_preserves funcs (fun l => NoDup (map f_name l)) c Hc). }
  destruct call; simpl.
  - unfold __onload__.
    apply preserves_bind; [apply Hfuncs, keeps_onload_adopt; reflexivity | intros _].
    apply preserves_bind; [apply Hfuncs, keeps_onload_read | intros _].
    apply preserves_bind; [apply preserves_call_hook; auto | intros _].
    apply preserves_call_hook; auto.
  - unfold __unload__.
    apply preserves_bind; [intros s _; apply NoDup_nil_2 | intros _].
    apply preserves_bind; [apply preserves_call_hook; auto | intros _].
    apply preserves_bind; [apply preserves_call_hook; auto | intros _].
    apply Hfuncs, keeps_unload_persist.
  - intros s _. apply NoDup_nil_2.
  - apply register_func_unique.
  - unfold register_user_func.
    destruct filter, raw_message_filter; try apply register_func_unique.
    intros s Hs. exact Hs.
  - unfold register_admin_func.
    destruct filter, raw_message_filter; try apply register_func_unique.
    intros s Hs. exact Hs.
  - apply register_func_unique.
  - apply Hfuncs, keeps_register_config. reflexivity.
Qed.

Lemma names_stay_unique_witness :
  names_unique
    (self (invoke env0 default_hooks
             (CallRegisterAdminFunc "pong" (Callable 2) None (Some (RawStr "p")) false)
             (with_func ping (echo_state false))).2)
  /\ names_unique
       (self (invoke env0 default_hooks
                (CallRegisterAdminFunc "ping" (Callable 2) None (Some (RawStr "p")) false)
                (with_func ping (echo_state false))).2).
Proof.
  assert (Hs : names_unique (self (with_func ping (echo_state false)))).
  { unfold names_unique. simpl. apply NoDup_singleton. }
  split; apply names_stay_unique; auto.
Defined.

(** ** The persistence engine, case by case *)

Lemma onload_read_handler env :
  onload_read env
  = try_except
      (s <- get ;; load env (data (self s)))
      (fun e =>
         match e with
         | FileTypeUnknownError | LoadError | FileNotFoundError =>
             Some (onload_recovery env)
         | _ => None
         end).
Proof. reflexivity. Qed.

Lemma loader_eta ld : mkLoader (file_path ld) (file_type ld) (ldata ld) = ld.
Proof. destruct ld. reflexivity. Qed.

(** [load] on a loader object either replaces the loader's value by the
    tree of a file that is there, or raises one of its three errors and
    changes nothing. *)
Lemma load_cases env s l ld :
  heap (world s) !! l = Some ld ->
  (exists c t,
     stat (fs (world s)) (file_path ld) = Some (File c)
     /\ load env (VRef l) s
        = (inr tt,
           mkState (self s)
             (set_heap (<[l := mkLoader (file_path ld) (file_type ld) (VTree t)]>
                          (heap (world s))) (world s))
             (out s ++ [EvLoad l])%list))
  \/ (exists e,
        load env (VRef l) s = (inl e, logged [EvLoad l] s)
        /\ (e = FileTypeUnknownError \/ e = LoadError \/ e = FileNotFoundError)).
Proof.
  intros Hl.
  destruct (known_format env (file_type ld)) eqn:Hk.
  - destruct (stat (fs (world s)) (file_path ld)) as [[| c] |] eqn:Hs.
    + right. exists LoadError. split; [| auto].
      unfold load, as_loader, read_loader. run.
      rewrite Hl. simpl. rewrite Hk. simpl. rewrite Hs. reflexivity.
    + destruct (decode (file_type ld) c) as [t |] eqn:Hd.
      * left. exists c, t. split; [reflexivity |].
        apply (load_ok env s l ld c t); assumption.
      * right. exists LoadError. split; [| auto].
        apply (load_malformed env s l ld c); assumption.
    + right. exists FileNotFoundError. split; [| auto].
      apply (load_absent env s l ld); assumption.
  - right. exists FileTypeUnknownError. split; [| auto].
    apply (load_unknown_format env s l ld); assumption.
Qed.

Lemma write_file_inr fs (p : path) c fs' :
  write_file fs p c = inr fs' -> fs' = <[p := File c]> fs /\ p <> [].
Proof.
  unfold write_file. destruct (stat fs (parent p)) as [[| c0] |]; try discriminate.
  destruct (stat fs p) as [[| c1] |] eqn:Hp; try discriminate;
    intros [= <-]; (split; [reflexivity |]); intros ->; discriminate.
Qed.

Lemma write_file_is_a_directory fs (p : path) c :
  stat fs p = Some Dir -> exists e, write_file fs p c = inl e.
Proof.
  intros Hp. unfold write_file.
  destruct (stat fs (parent p)) as [[| c0] |]; eauto.
  rewrite Hp. eauto.
Qed.

(** [save] on a loader object either writes the encoding of the loader's
    tree to the loader's path, or raises an error that [__unload__] catches
    and changes nothing. *)
Lemma save_cases env s l ld :
  heap (world s) !! l = Some ld ->
  (exists t,
     ldata ld = VTree t
     /\ file_path ld <> []
     /\ save env (VRef l) s
        = (inr tt,
           mkState (self s)
             (set_fs (<[file_path ld := File (Encoded (file_type ld) t)]>
                        (fs (world s))) (world s))
             (out s ++ [EvSave l])%list))
  \/ (exists e,
        save env (VRef l) s = (inl e, logged [EvSave l] s)
        /\ persistence_error e = true).
Proof.
  intros Hl. unfold save, as_loader, read_loader. run. rewrite Hl. simpl.
  destruct (known_format env (file_type ld)) eqn:Hk; simpl.
  - destruct (ldata ld) as [t | l'] eqn:Ht; simpl.
    + destruct (write_file _ _ _) as [e | fs'] eqn:Hw; simpl.
      * right. eexists. split; reflexivity.
      * left. exists t. destruct (write_file_inr _ _ _ _ Hw) as [-> Hp].
        split; [reflexivity |]. split; [exact Hp | reflexivity].
    + right. eexists. split; reflexivity.
  - right. eexists. split; reflexivity.
Qed.

Arguments save : simpl never.
Arguments load : simpl never.

(** ** Unloading: errors *)




(** ** Debug mode and the disk *)

Lemma quiet_bind {A B} (c : M State A) (k : A -> M State B) :
  disk_quiet c -> (forall a, disk_quiet (k a)) -> disk_quiet (bind c k).
Proof.
  intros Hc Hk s Hs. unfold bind. destruct (Hc s Hs) as [Hfs Hd].
  destruct (c s) as [[e | a] s1]; simpl in *; [auto |].
  destruct (Hk a s1 Hd) as [Hfs' Hd']. split; [congruence | exact Hd'].
Qed.

Lemma quiet_try_except {A} (c : M State A) h :
  disk_quiet c -> (forall e k, h e = Some k -> disk_quiet k) ->
  disk_quiet (try_except c h).
Proof.
  intros Hc Hh s Hs. unfold try_except. destruct (Hc s Hs) as [Hfs Hd].
  destruct (c s) as [[e | a] s1]; simpl in *; [| auto].
  destruct (h e) as [k |] eqn:E; simpl; [| auto].
  destruct (Hh e k E s1 Hd) as [Hfs' Hd']. split; [congruence | exact Hd'].
Qed.

Lemma quiet_self_only {A} (c : M State A) :
  (forall s, fs (world (c s).2) = fs (world s)
             /\ _debug (self (c s).2) = _debug (self s)) ->
  disk_quiet c.
Proof.
  intros H s Hs. destruct (H s) as [Hfs Hd]. split; [exact Hfs |].
  unfold debug in *. congruence.
Qed.

(** [load] never writes to the disk and never touches the plugin object. *)
Lemma load_frame env v s :
  fs (world (load env v s).2) = fs (world s)
  /\ self (load env v s).2 = self s.
Proof.
  destruct v as [t | l]; [split; reflexivity |].
  destruct (heap (world s) !! l) as [ld |] eqn:Hl.
  - destruct (load_cases env s l ld Hl) as [(c & t & _ & ->) | (e & -> & _)];
      split; reflexivity.
  - unfold load, as_loader, read_loader. run. rewrite Hl. split; reflexivity.
Qed.

Lemma quiet_load env v : disk_quiet (load env v).
Proof.
  apply quiet_self_only. intros s. destruct (load_frame env v s) as [H1 H2].
  rewrite H1, H2. auto.
Qed.

Lemma quiet_onload_adopt : disk_quiet onload_adopt.
Proof.
  apply quiet_self_only. intros s. split.
  - unfold onload_adopt, assign_loader_data, as_loader, read_loader. run.
    destruct (isinstance_dict_list (data (self s))); [| reflexivity]. simpl.
    destruct ((heap (world s) ++ _)%list !! length (heap (world s)));
      reflexivity.
  - apply (keeps_onload_adopt _debug). reflexivity.
Qed.

Lemma quiet_onload_read env : disk_quiet (onload_read env).
Proof.
  rewrite onload_read_handler. apply quiet_try_except.
  - intros s Hs. exact (quiet_load env (data (self s)) s Hs).
  - intros e k Hk.
    assert (Hrec : disk_quiet (onload_recovery env)).
    { intros s Hs. unfold onload_recovery, bind, get. simpl. rewrite Hs. auto. }
    destruct e; try discriminate; injection Hk as <-; exact Hrec.
Qed.

Lemma quiet_unload_persist env : disk_quiet (unload_persist env).
Proof.
  unfold unload_persist. apply quiet_try_except.
  - intros s Hs. unfold loader_data, as_loader, read_loader. run.
    rewrite Hs.
    destruct (data (self s)) as [t | l]; simpl; [auto |].
    destruct (heap (world s) !! l); simpl; auto.
  - intros e k Hk.
    destruct e; try discriminate; injection Hk as <-; intros s Hs; auto.
Qed.

Lemma quiet_call_hook id (hk : hook) arg kwd :
  hook_keeps_disk hk -> disk_quiet (call_hook id hk arg kwd).
Proof.
  intros H s Hs. rewrite call_hook_eval. destruct (H arg kwd (self s) (world s)) as [Hfs Hd].
  unfold debug in *.
  destruct (hk arg kwd (self s) (world s)) as [[[e |] p] w]; simpl in *;
    split; congruence.
Qed.

Lemma quiet_register_func n h flt raw perm pr :
  disk_quiet (_register_func n h flt raw perm pr).
Proof.
  apply quiet_self_only. intros s. unfold _register_func. run.
  destruct (forallb _ _); split; reflexivity.
Qed.

Lemma quiet_invoke env h call :
  hook_keeps_disk (_init_ h) -> hook_keeps_disk (on_load h) ->
  hook_keeps_disk (_close_ h) -> hook_keeps_disk (on_close h) ->
  disk_quiet (invoke env h call).
Proof.
  intros Hinit Hload Hclose Honclose. destruct call; simpl.
  - unfold __onload__.
    apply quiet_bind; [apply quiet_onload_adopt | intros _].
    apply quiet_bind; [apply quiet_onload_read | intros _].
    apply quiet_bind; [apply quiet_call_hook, Hinit | intros _].
    apply quiet_call_hook, Hload.
  - unfold __unload__.
    apply quiet_bind; [apply quiet_self_only; intros s; split; reflexivity | intros _].
    apply quiet_bind; [apply quiet_call_hook, Hclose | intros _].
    apply quiet_bind; [apply quiet_call_hook, Honclose | intros _].
    apply quiet_unload_persist.
  - apply quiet_self_only. intros s. split; reflexivity.
  - apply quiet_register_func.
  - unfold register_user_func.
    destruct filter, raw_message_filter; try apply quiet_register_func.
    apply quiet_self_only. intros s. split; reflexivity.
  - unfold register_admin_func.
    destruct filter, raw_message_filter; try apply quiet_register_func.
    apply quiet_self_only. intros s. split; reflexivity.
  - apply quiet_register_func.
  - apply quiet_self_only. intros s. split; reflexivity.
Qed.

(** X10: debug mode never writes to the disk. Whatever method of the
    class is called on a plugin in debug mode, with hooks that leave the
    disk and the debug flag alone, the file system after the call is the
    file system before it, whether the call returned or raised; and the
    plugin is still in debug mode. *)
Theorem debug_never_writes env h call s :
  hook_keeps_disk (_init_ h) -> hook_keeps_disk (on_load h) ->
  hook_keeps_disk (_close_ h) -> hook_keeps_disk (on_close h) ->
  debug (self s) = true ->
  fs (world (invoke env h call s).2) = fs (world s)
  /\ debug (self (invoke env h call s).2) = true.
Proof.
  intros Hinit Hload Hclose Honclose Hs.
  exact (quiet_invoke env h call Hinit Hload Hclose Honclose s Hs).
Qed.

Lemma debug_never_writes_witness :
  fs (world (invoke env0 default_hooks CallOnload (echo_state true)).2)
  = fs (world (echo_state true))
  /\ fs (world (invoke env0 default_hooks (CallUnload [] []) (echo_state true)).2)
     = fs (world (echo_state true)).
Proof.
  assert (Hpass : hook_keeps_disk pass) by (intros arg kwd p w; split; reflexivity).
  split.
  - apply (debug_never_writes env0 default_hooks CallOnload (echo_state true));
      try exact Hpass. reflexivity.
  - apply (debug_never_writes env0 default_hooks (CallUnload [] []) (echo_state true));
      try exact Hpass. reflexivity.
Defined.

(** ** What the methods leave alone *)

(** X11: no method of the class reassigns what identifies the plugin or
    places it on disk. Whatever method is called in whatever state, with
    hooks that leave them alone, the name, the version, the save format,
    the debug flag, the module file, the source directory, the working
    directory and the data path are after the call what they were before:
    the debug property in particular is fixed at construction. *)
Theorem identity_is_fixed env h call s :
  hook_keeps_identity (_init_ h) -> hook_keeps_identity (on_load h) ->
  hook_keeps_identity (_close_ h) -> hook_keeps_identity (on_close h) ->
  identity_and_paths (self (invoke env h call s).2) = identity_and_paths (self s).
Proof.
  intros Hinit Hload Hclose Honclose.
  apply (keeps_invoke identity_and_paths); auto.
Qed.

Lemma identity_is_fixed_witness :
  identity_and_paths
    (self (invoke env0 default_hooks (CallUnload [] []) (echo_state true)).2)
  = identity_and_paths (echo_plugin true).
Proof.
  apply (identity_is_fixed env0 default_hooks (CallUnload [] []) (echo_state true));
    intros arg kwd p w; reflexivity.
Defined.

(** ** Loading: what [data] and the disk are afterwards *)

Lemma onload_adopt_dict s :
  isinstance_dict_list (data (self s)) = true ->
  onload_adopt s
  = (inr tt,
     mkState (set_data (VRef (length (heap (world s)))) (self s))
       (set_heap (heap (world s)
                  ++ [mkLoader (_data_path (self s)) (save_type (self s))
                        (VRef (length (heap (world s))))])%list (world s))
       (out s)).
Proof.
  intros Hinst.
  unfold onload_adopt, assign_loader_data, as_loader, read_loader. run.
  rewrite Hinst. simpl.
  rewrite (list_lookup_middle (heap (world s)) []
             (mkLoader (_data_path (self s)) (save_type (self s))
                (VTree (TDict []))) (length (heap (world s))) eq_refl).
  simpl. unfold set_heap. simpl. f_equal. f_equal. f_equal.
  rewrite <- (Nat.add_0_r (length (heap (world s)))) at 1.
  rewrite insert_app_r. reflexivity.
Qed.

Lemma onload_adopt_other s :
  isinstance_dict_list (data (self s)) = false -> onload_adopt s = (inr tt, s).
Proof. intros H. unfold onload_adopt. run. rewrite H. reflexivity. Qed.

(** X12: after [__onload__], whatever its outcome, [data] is no plain dict
    or list (with init hooks that do not assign [data]): a dict or list
    found there has been replaced by a loader before anything is read, and
    nothing that follows puts one back. *)
Theorem data_is_no_dict_after_load env h s :
  hook_keeps_data (_init_ h) -> hook_keeps_data (on_load h) ->
  isinstance_dict_list (data (self (__onload__ env h s).2)) = false.
Proof.
  intros Hinit Hload.
  assert (Hrest : preserves (fun p => isinstance_dict_list (data p) = false)
                    (onload_read env ;;
                     call_hook HInit (_init_ h) [] [] ;;
                     call_hook HOnLoad (on_load h) [] [])).
  { apply preserves_bind;
      [apply (keeps_preserves data (fun v => isinstance_dict_list v = false)),
         keeps_onload_read | intros _].
    apply preserves_bind; [| intros _];
      apply preserves_call_hook; intros p w Hp.
    - rewrite Hinit. exact Hp.
    - rewrite Hload. exact Hp. }
  unfold __onload__. unfold bind at 1.
  destruct (isinstance_dict_list (data (self s))) eqn:Hinst.
  - rewrite (onload_adopt_dict s Hinst). apply Hrest. reflexivity.
  - rewrite (onload_adopt_other s Hinst). apply Hrest. exact Hinst.
Qed.

Lemma data_is_no_dict_after_load_witness :
  isinstance_dict_list (data (self echo_state_dict)) = true
  /\ isinstance_dict_list
       (data (self (__onload__ env0 default_hooks echo_state_dict).2)) = false.
Proof.
  split; [reflexivity |].
  apply (data_is_no_dict_after_load env0 default_hooks echo_state_dict);
    intros arg kwd p w; reflexivity.
Defined.

(** X13: when [data] holds a plain dict or list at load time and the data
    file is readable, [__onload__] (with the hooks of the base class)
    returns with the file's tree in the new loader, in either mode and
    without writing anything: what the dict or list held is never loaded
    into the store. *)
Theorem onload_dict_replaced_by_file env s c t :
  isinstance_dict_list (data (self s)) = true ->
  known_format env (save_type (self s)) = true ->
  stat (fs (world s)) (_data_path (self s)) = Some (File c) ->
  decode (save_type (self s)) c = Some t ->
  let r := __onload__ env default_hooks s in
  let l := length (heap (world s)) in
  r.1 = inr tt
  /\ data (self r.2) = VRef l
  /\ heap (world r.2) !! l
     = Some (mkLoader (_data_path (self s)) (save_type (self s)) (VTree t))
  /\ fs (world r.2) = fs (world s).
Proof.
  intros Hinst Hk Hs Hd r l.
  set (s1 := mkState (set_data (VRef l) (self s))
               (set_heap (heap (world s)
                          ++ [mkLoader (_data_path (self s)) (save_type (self s))
                                (VRef l)])%list (world s)) (out s)).
  assert (Hr : r = __onload__ env default_hooks s1).
  { unfold r. rewrite (onload_of_loader env default_hooks s1 l eq_refl).
    unfold __onload__. unfold bind at 1.
    rewrite (onload_adopt_dict s Hinst). reflexivity. }
  assert (Hl : heap (world s1) !! l
               = Some (mkLoader (_data_path (self s)) (save_type (self s)) (VRef l))).
  { simpl. apply list_lookup_middle. reflexivity. }
  assert (Hread : onload_read env s1
                  = (inr tt,
                     mkState (self s1)
                       (set_heap (<[l := mkLoader (_data_path (self s))
                                           (save_type (self s)) (VTree t)]>
                                    (heap (world s1))) (world s1))
                       (out s1 ++ [EvLoad l])%list)).
  { rewrite onload_read_handler. unfold try_except, bind, get.
    change (data (self s1)) with (VRef l).
    rewrite (load_ok env s1 l _ c t Hl Hk Hs Hd). reflexivity. }
  rewrite Hr, (onload_default_hooks env s1 l eq_refl), Hread.
  split; [reflexivity |]. split; [reflexivity |]. split; [| reflexivity].
  simpl. apply list_lookup_insert_eq.
  rewrite length_app. simpl. unfold l. lia.
Qed.

Lemma onload_dict_replaced_by_file_witness :
  let r := __onload__ env0 default_hooks echo_state_dict_saved in
  r.1 = inr tt
  /\ heap (world r.2) !! 1
     = Some (mkLoader ["data"; "echo"; "echo.json"] "json" (VTree (TDict []))).
Proof.
  intros r.
  destruct (onload_dict_replaced_by_file env0 echo_state_dict_saved
              (Encoded "json" (TDict [])) (TDict []))
    as (Hret & _ & Hheap & _).
  - reflexivity.
  - vm_compute. reflexivity.
  - vm_compute. reflexivity.
  - vm_compute. reflexivity.
  - split; [exact Hret | exact Hheap].
Defined.

(** The recovery of [__onload__] and the disk: whatever its outcome, the
    data path exists afterwards and no other path has changed. *)
Lemma onload_recovery_disk env s l ld :
  debug (self s) = false ->
  owns_loader s l ld ->
  is_dir (fs (world s)) (parent (_data_path (self s))) = true ->
  self (onload_recovery env s).2 = self s
  /\ path_exists (fs (world (onload_recovery env s).2)) (_data_path (self s)) = true
  /\ forall q, q <> _data_path (self s) ->
               stat (fs (world (onload_recovery env s).2)) q = stat (fs (world s)) q.
Proof.
  intros Hdbg (Hdata & Hl & Hpath) Hdir.
  set (p := _data_path (self s)) in *.
  unfold onload_recovery, fs_call. run. rewrite Hdbg. fold p.
  destruct (stat (fs (world s)) p) as [[| c0] |] eqn:Hp.
  - destruct (write_file_is_a_directory (fs (world s)) p (Raw "") Hp) as [e ->].
    simpl. split; [reflexivity |]. split; [| reflexivity].
    unfold path_exists. rewrite Hp. reflexivity.
  - rewrite write_file_ok; [| exact Hdir | rewrite Hp; discriminate]. simpl.
    rewrite Hdata.
    assert (Hnonroot : p <> []) by (intros E; rewrite E in Hp; discriminate).
    match goal with
    | |- context [save env (VRef l) ?st] =>
        destruct (save_cases env st l ld Hl) as [(t & _ & _ & ->) | (e & -> & _)]
    end; simpl.
    + rewrite ?Hdata.
      match goal with
      | |- context [load env (VRef l) ?st] =>
          destruct (load_frame env (VRef l) st) as [-> ->]
      end. simpl. rewrite Hpath. fold p.
      split; [reflexivity |]. split.
      * unfold path_exists. rewrite stat_insert_eq; [reflexivity | exact Hnonroot].
      * intros q Hq. rewrite !stat_insert_ne; auto.
    + split; [reflexivity |]. split.
      * unfold path_exists. rewrite stat_insert_eq; [reflexivity | exact Hnonroot].
      * intros q Hq. rewrite stat_insert_ne; auto.
  - rewrite write_file_ok; [| exact Hdir | rewrite Hp; discriminate]. simpl.
    rewrite Hdata.
    assert (Hnonroot : p <> []) by (intros E; rewrite E in Hp; discriminate).
    match goal with
    | |- context [save env (VRef l) ?st] =>
        destruct (save_cases env st l ld Hl) as [(t & _ & _ & ->) | (e & -> & _)]
    end; simpl.
    + rewrite ?Hdata.
      match goal with
      | |- context [load env (VRef l) ?st] =>
          destruct (load_frame env (VRef l) st) as [-> ->]
      end. simpl. rewrite Hpath. fold p.
      split; [reflexivity |]. split.
      * unfold path_exists. rewrite stat_insert_eq; [reflexivity | exact Hnonroot].
      * intros q Hq. rewrite !stat_insert_ne; auto.
    + split; [reflexivity |]. split.
      * unfold path_exists. rewrite stat_insert_eq; [reflexivity | exact Hnonroot].
      * intros q Hq. rewrite stat_insert_ne; auto.
Qed.

(** The read stage of [__onload__] outside debug mode and the disk. *)
Lemma onload_read_disk env s l ld :
  debug (self s) = false ->
  owns_loader s l ld ->
  is_dir (fs (world s)) (parent (_data_path (self s))) = true ->
  path_exists (fs (world (onload_read env s).2)) (_data_path (self s)) = true
  /\ forall q, q <> _data_path (self s) ->
               stat (fs (world (onload_read env s).2)) q = stat (fs (world s)) q.
Proof.
  intros Hdbg Hown Hdir. pose proof Hown as (Hdata & Hl & Hpath).
  rewrite onload_read_handler. unfold try_except.
  change ((s0 <- get ;; load env (data (self s0))) s)
    with (load env (data (self s)) s).
  rewrite Hdata.
  destruct (load_cases env s l ld Hl) as [(c & t & Hs & ->) | (e & -> & He)].
  - simpl. split; [| reflexivity].
    unfold path_exists. rewrite <- Hpath, Hs. reflexivity.
  - assert (Hrec :
      path_exists (fs (world (onload_recovery env (logged [EvLoad l] s)).2))
        (_data_path (self s)) = true
      /\ forall q, q <> _data_path (self s) ->
           stat (fs (world (onload_recovery env (logged [EvLoad l] s)).2)) q
           = stat (fs (world s)) q).
    { destruct (onload_recovery_disk env (logged [EvLoad l] s) l ld)
        as (_ & H1 & H2); auto. }
    destruct He as [-> | [-> | ->]]; exact Hrec.
Qed.

(** X14: a load outside debug mode ends the first start. For a plugin
    that has just been constructed outside debug mode, [__onload__] (with
    the hooks of the base class) leaves the data path on the disk whatever
    its outcome, even when the recovery itself raises; so the same
    construction repeated afterwards succeeds and finds [first_load]
    false. *)
Theorem load_ends_first_start env cls eb sch kwd w p w' o :
  __init__ env cls eb sch false kwd w = (inr p, w') ->
  let s' := (__onload__ env default_hooks (mkState p w' o)).2 in
  path_exists (fs (world s')) (_data_path p) = true
  /\ exists p2 w2,
       __init__ env cls eb sch false kwd (world s') = (inr p2, w2)
       /\ first_load p2 = false.
Proof.
  intros Hinit s'.
  destruct (init_identity_present _ _ _ _ _ _ _ _ _ Hinit) as [Hn Hv].
  destruct (init_loader _ _ _ _ _ _ _ _ _ o Hinit) as (l & Hown & Hdir).
  assert (Hdbg : debug (self (mkState p w' o)) = false).
  { destruct (init_inv _ _ _ _ _ _ _ _ _ Hinit) as (? & ? & _ & _ & _ & ->).
    reflexivity. }
  destruct (onload_read_disk env (mkState p w' o) l _ Hdbg Hown Hdir)
    as [Hexists Hother].
  assert (Hworld : world s' = world (onload_read env (mkState p w' o)).2).
  { unfold s'. destruct Hown as (Hdata & _).
    rewrite (onload_default_hooks env _ l Hdata).
    destruct (onload_read env (mkState p w' o)) as [[e | []] s1]; reflexivity. }
  rewrite Hworld. split; [exact Hexists |].
  rewrite (init_eval env cls eb sch false kwd _ Hn Hv).
  destruct (init_inv _ _ _ _ _ _ _ _ _ Hinit) as (first & w1 & _ & _ & _ & Hp).
  set (c := (after_kwd cls kwd).1) in *.
  assert (Hwork : _work_path p = work_path_of env c) by (rewrite Hp; reflexivity).
  assert (Hdatap : _data_path p = data_path_of env c) by (rewrite Hp; reflexivity).
  simpl in Hexists, Hother, Hdir. rewrite Hdatap in *.
  rewrite data_path_parent in Hdir.
  assert (Hneq : work_path_of env c <> data_path_of env c).
  { intros E. apply (data_path_not_prefix env c). rewrite <- E. reflexivity. }
  assert (Hdir' : is_dir (fs (world (onload_read env (mkState p w' o)).2))
                    (work_path_of env c) = true).
  { unfold is_dir. rewrite (Hother _ Hneq). exact Hdir. }
  unfold check_first_load. run.
  assert (Hex : path_exists (fs (world (onload_read env (mkState p w' o)).2))
                  (work_path_of env c) = true).
  { unfold path_exists. unfold is_dir in Hdir'.
    destruct (stat _ (work_path_of env c)); [reflexivity | discriminate]. }
  rewrite Hex, Hexists. simpl. rewrite Hdir'.
  eexists. eexists. split; reflexivity.
Qed.

Lemma load_ends_first_start_witness :
  let s' := (__onload__ env0 default_hooks (echo_state false)).2 in
  path_exists (fs (world s')) (_data_path (echo_plugin false)) = true
  /\ exists p2 w2,
       __init__ env0 Echo 0 0 false [] (world s') = (inr p2, w2)
       /\ first_load p2 = false.
Proof.
  assert (Hinit : __init__ env0 Echo 0 0 false [] world0
                  = (inr (echo_plugin false), echo_world))
    by (vm_compute; reflexivity).
  exact (load_ends_first_start env0 Echo 0 0 [] world0 (echo_plugin false)
           echo_world [] Hinit).
Defined.

(** X15: in debug mode a first start stays a first start. For a plugin
    constructed in debug mode where no data file was, [__onload__] (with
    the hooks of the base class) leaves the disk as the construction left
    it, so the same construction repeated afterwards succeeds and finds
    [first_load] true again. *)
Theorem debug_load_keeps_first_start env cls eb sch kwd w p w' o :
  __init__ env cls eb sch true kwd w = (inr p, w') ->
  path_exists (fs w) (_data_path p) = false ->
  let s' := (__onload__ env default_hooks (mkState p w' o)).2 in
  fs (world s') = fs w'
  /\ exists p2 w2,
       __init__ env cls eb sch true kwd (world s') = (inr p2, w2)
       /\ first_load p2 = true.
Proof.
  intros Hinit Hnofile s'.
  assert (Hpass : hook_keeps_disk pass) by (intros arg kwd0 p0 w0; split; reflexivity).
  assert (Hdbg : debug (self (mkState p w' o)) = true).
  { destruct (init_inv _ _ _ _ _ _ _ _ _ Hinit) as (? & ? & _ & _ & _ & ->).
    reflexivity. }
  destruct (quiet_invoke env default_hooks CallOnload Hpass Hpass Hpass Hpass
              (mkState p w' o) Hdbg) as [Hfs _].
  split; [exact Hfs |].
  destruct (init_repeat _ _ _ _ _ _ _ _ _ (world s') Hinit Hfs Hnofile)
    as (p2 & w2 & Hagain & Hfirst & _).
  exists p2, w2. split; assumption.
Qed.

Lemma debug_load_keeps_first_start_witness :
  let s' := (__onload__ env0 default_hooks (echo_state true)).2 in
  fs (world s') = fs echo_world
  /\ exists p2 w2,
       __init__ env0 Echo 0 0 true [] (world s') = (inr p2, w2)
       /\ first_load p2 = true.
Proof.
  assert (Hinit : __init__ env0 Echo 0 0 true [] world0
                  = (inr (echo_plugin true), echo_world))
    by (vm_compute; reflexivity).
  apply (debug_load_keeps_first_start env0 Echo 0 0 [] world0 (echo_plugin true)
           echo_world [] Hinit).
  vm_compute. reflexivity.
Defined.
